(** * Court Case Reminder: the state logic of [src/App.js], embedded in Rocq

    The React component [App] keeps one array of case objects, mirrors it to
    [localStorage] and derives filtered and sorted views from it.  This file
    embeds that logic shallowly: the handlers become functions on an explicit
    application state, the built-in objects they call ([Date], [JSON],
    [String.prototype], [Array.prototype], [localStorage]) are modelled after
    ECMA-262 and the Web Storage standard, and the properties of the
    specification are proved about these functions. *)

From Stdlib Require Import ZArith List String Ascii Bool Lia.
From Stdlib Require Import Permutation Sorted.
Import ListNotations.

Local Open Scope Z_scope.

(* ================================================================== *)
(** * Time values and calendar arithmetic (ECMA-262, Date objects)     *)
(* ================================================================== *)

(** A time value is a number of milliseconds since the epoch, or NaN.  The
    finite ones are integers; [option Z] has [None] for NaN. *)

Module JSDate.

Definition TimeValue := option Z.

Definition msPerDay : Z := 86400000.
Definition msPerHour : Z := 3600000.
Definition msPerMinute : Z := 60000.
Definition msPerSecond : Z := 1000.

(** [Z.div] and [Z.modulo] round towards minus infinity for a positive
    divisor, which is ECMA-262's floor and its "modulo". *)
Definition Day (t : Z) : Z := t / msPerDay.
Definition TimeWithinDay (t : Z) : Z := t mod msPerDay.

Definition DaysInYear (y : Z) : Z :=
  if negb (y mod 4 =? 0) then 365
  else if negb (y mod 100 =? 0) then 366
  else if negb (y mod 400 =? 0) then 365
  else 366.

Definition DayFromYear (y : Z) : Z :=
  365 * (y - 1970) + (y - 1969) / 4 - (y - 1901) / 100 + (y - 1601) / 400.

Definition TimeFromYear (y : Z) : Z := msPerDay * DayFromYear y.

(** The year of a day number: the largest [y] with [DayFromYear y <= d].
    A year has 146097/400 days on average, so the quotient below is off by
    at most one, which the two tests repair ([yearOfDay_spec]). *)
Definition yearOfDay (d : Z) : Z :=
  let y := 1970 + (400 * d) / 146097 in
  if d <? DayFromYear y then y - 1
  else if DayFromYear (y + 1) <=? d then y + 1
  else y.

Definition YearFromTime (t : Z) : Z := yearOfDay (Day t).

Definition InLeapYear (t : Z) : Z :=
  if DaysInYear (YearFromTime t) =? 366 then 1 else 0.

Definition DayWithinYear (t : Z) : Z := Day t - DayFromYear (YearFromTime t).

Definition MonthFromTime (t : Z) : Z :=
  let d := DayWithinYear t in
  let leap := InLeapYear t in
  if d <? 31 then 0
  else if d <? 59 + leap then 1
  else if d <? 90 + leap then 2
  else if d <? 120 + leap then 3
  else if d <? 151 + leap then 4
  else if d <? 181 + leap then 5
  else if d <? 212 + leap then 6
  else if d <? 243 + leap then 7
  else if d <? 273 + leap then 8
  else if d <? 304 + leap then 9
  else if d <? 334 + leap then 10
  else 11.

Definition DateFromTime (t : Z) : Z :=
  let d := DayWithinYear t in
  let leap := InLeapYear t in
  match MonthFromTime t with
  | 0 => d + 1
  | 1 => d - 30
  | 2 => d - 58 - leap
  | 3 => d - 89 - leap
  | 4 => d - 119 - leap
  | 5 => d - 150 - leap
  | 6 => d - 180 - leap
  | 7 => d - 211 - leap
  | 8 => d - 242 - leap
  | 9 => d - 272 - leap
  | 10 => d - 303 - leap
  | _ => d - 333 - leap
  end.

Definition HourFromTime (t : Z) : Z := (t / msPerHour) mod 24.
Definition MinFromTime (t : Z) : Z := (t / msPerMinute) mod 60.
Definition SecFromTime (t : Z) : Z := (t / msPerSecond) mod 60.
Definition msFromTime (t : Z) : Z := t mod msPerSecond.

Definition MakeTime (hour min sec ms : Z) : Z :=
  hour * msPerHour + min * msPerMinute + sec * msPerSecond + ms.

(** Days of the year that precede month [mn] (0..11). *)
Definition daysBeforeMonth (leap mn : Z) : Z :=
  match mn with
  | 0 => 0
  | 1 => 31
  | 2 => 59 + leap
  | 3 => 90 + leap
  | 4 => 120 + leap
  | 5 => 151 + leap
  | 6 => 181 + leap
  | 7 => 212 + leap
  | 8 => 243 + leap
  | 9 => 273 + leap
  | 10 => 304 + leap
  | _ => 334 + leap
  end.

(** [MakeDay]: the day number of the first of month [mn] of year [ym], plus
    [date - 1]; a month outside 0..11 carries into the year and a date
    outside the month runs over into the neighbouring months. *)
Definition MakeDay (year month date : Z) : Z :=
  let ym := year + month / 12 in
  let mn := month mod 12 in
  let leap := if DaysInYear ym =? 366 then 1 else 0 in
  DayFromYear ym + daysBeforeMonth leap mn + date - 1.

Definition MakeDate (day time : Z) : Z := day * msPerDay + time.

Definition maxTime : Z := 8640000000000000.

Definition TimeClip (t : Z) : TimeValue :=
  if maxTime <? Z.abs t then None else Some t.

End JSDate.

(* ================================================================== *)
(** * Strings                                                          *)
(* ================================================================== *)

(** JavaScript strings are modelled by [string], one [ascii] per code unit:
    the strings of this model are those of code units below U+0100.  On
    them the Unicode lower-case mapping that [toLowerCase] applies works
    unit by unit and without context: the capitals A to Z, U+00C0 to U+00D6
    and U+00D8 to U+00DE go to the letter 32 places on, every other unit
    stays (the multiplication sign U+00D7 among them). *)

Module JSString.

Definition toLowerChar (c : ascii) : ascii :=
  let n := N_of_ascii c in
  if (((65 <=? n) && (n <=? 90)) || ((192 <=? n) && (n <=? 214))
      || ((216 <=? n) && (n <=? 222)))%N
  then ascii_of_N (n + 32) else c.

Fixpoint toLowerCase (s : string) : string :=
  match s with
  | EmptyString => EmptyString
  | String c r => String (toLowerChar c) (toLowerCase r)
  end.

(** [startsWith s t]: [t] is a prefix of [s]. *)
Fixpoint startsWith (s t : string) : bool :=
  match t, s with
  | EmptyString, _ => true
  | String _ _, EmptyString => false
  | String b t', String a s' => (a =? b)%char && startsWith s' t'
  end.

(** [String.prototype.includes]: [t] occurs in [s] at some position. *)
Fixpoint includes (s t : string) : bool :=
  startsWith s t ||
  match s with
  | EmptyString => false
  | String _ s' => includes s' t
  end.

(** [s.split(sep)[0]] for a separator of one code unit: the part of [s]
    before the first [sep], all of [s] when there is none. *)
Fixpoint splitHead (sep : ascii) (s : string) : string :=
  match s with
  | EmptyString => EmptyString
  | String c r => if (c =? sep)%char then EmptyString else String c (splitHead sep r)
  end.

(** Truthiness of a string: every string but the empty one. *)
Definition truthy (s : string) : bool :=
  match s with EmptyString => false | String _ _ => true end.

Definition digitChar (d : Z) : ascii := ascii_of_N (Z.to_N (48 + d)).

Definition digitVal (c : ascii) : option Z :=
  let n := Z.of_N (N_of_ascii c) in
  if (48 <=? n) && (n <=? 57) then Some (n - 48) else None.

(** The value of a run of decimal digits, most significant first. *)
Fixpoint digitsVal (acc : Z) (cs : list ascii) : option Z :=
  match cs with
  | [] => Some acc
  | c :: r =>
      match digitVal c with
      | Some d => digitsVal (10 * acc + d) r
      | None => None
      end
  end.

(** [n] decimal digits of [z], zero padded (the low [n] digits). *)
Fixpoint padDigits (n : nat) (z : Z) : string :=
  match n with
  | O => EmptyString
  | S n' => (padDigits n' (z / 10) ++ String (digitChar (z mod 10)) EmptyString)%string
  end.

End JSString.

(* ================================================================== *)
(** * Date objects                                                     *)
(* ================================================================== *)

Module DateObj.

Import JSDate JSString.

Definition DaysInMonth (y m : Z) : Z :=
  match m with
  | 2 => if DaysInYear y =? 366 then 29 else 28
  | 4 | 6 | 9 | 11 => 30
  | _ => 31
  end.

(** The date-only forms of the Date Time String Format: [YYYY-MM-DD] and,
    with an expanded year, [+YYYYYY-MM-DD] and [-YYYYYY-MM-DD].  A date-only
    form denotes midnight UTC of that day. *)
Definition dateOnly (sign : Z) (ys ms ds : list ascii) : TimeValue :=
  match digitsVal 0 ys, digitsVal 0 ms, digitsVal 0 ds with
  | Some y, Some m, Some d =>
      if (1 <=? m) && (m <=? 12) && (1 <=? d) && (d <=? DaysInMonth (sign * y) m)
      then TimeClip (MakeDate (MakeDay (sign * y) (m - 1) d) 0)
      else None
  | _, _, _ => None
  end.

(** [new Date(s)] for a string [s], on the date-only forms above, which a
    date input delivers and [moveToNextHearing] writes: ECMA-262 reads them
    as UTC.  Its Date Time String Format has more forms (a year alone, a
    year and a month, the forms with a time), and an engine reads further
    formats by rules of its own; the model reads none of these and gives
    them, like the empty string, the time value NaN.  The statements on
    dates below are therefore made for calendar dates ([isCalendarDate]). *)
Definition parse (s : string) : TimeValue :=
  match list_ascii_of_string s with
  | [y1; y2; y3; y4; s1; m1; m2; s2; d1; d2] =>
      if ((s1 =? "-") && (s2 =? "-"))%char
      then dateOnly 1 [y1; y2; y3; y4] [m1; m2] [d1; d2]
      else None
  | [sg; y1; y2; y3; y4; y5; y6; s1; m1; m2; s2; d1; d2] =>
      if ((s1 =? "-") && (s2 =? "-"))%char then
        if (sg =? "+")%char
        then dateOnly 1 [y1; y2; y3; y4; y5; y6] [m1; m2] [d1; d2]
        else if (sg =? "-")%char then
          match digitsVal 0 [y1; y2; y3; y4; y5; y6] with
          | Some 0 => None
          | _ => dateOnly (-1) [y1; y2; y3; y4; y5; y6] [m1; m2] [d1; d2]
          end
        else None
      else None
  | _ => None
  end.

Definition yearString (y : Z) : string :=
  if (0 <=? y) && (y <=? 9999) then padDigits 4 y
  else if y <? 0 then String "-" (padDigits 6 (- y))
  else String "+" (padDigits 6 y).

(** The ISO format of a finite time value, in UTC. *)
Definition isoString (t : Z) : string :=
  (yearString (YearFromTime t) ++ "-" ++
   padDigits 2 (MonthFromTime t + 1) ++ "-" ++
   padDigits 2 (DateFromTime t) ++ "T" ++
   padDigits 2 (HourFromTime t) ++ ":" ++
   padDigits 2 (MinFromTime t) ++ ":" ++
   padDigits 2 (SecFromTime t) ++ "." ++
   padDigits 3 (msFromTime t) ++ "Z")%string.

(** [Date.prototype.toISOString]; [None] is the RangeError thrown for an
    invalid date. *)
Definition toISOString (tv : TimeValue) : option string :=
  match tv with
  | None => None
  | Some t => Some (isoString t)
  end.

(** The methods that read or write local time.  [LocalTZA] is the offset of
    local time from UTC in milliseconds, taken constant: the model is that
    of a time zone of fixed offset, and has no daylight-saving changes
    (across one, the offset in and the offset out of local time differ). *)
Section Zone.

Variable LocalTZA : Z.

Definition LocalTime (t : Z) : Z := t + LocalTZA.
Definition UTC (t : Z) : Z := t - LocalTZA.

Definition setHours (tv : TimeValue) (hour min sec ms : Z) : TimeValue :=
  match tv with
  | None => None
  | Some t =>
      let t' := LocalTime t in
      TimeClip (UTC (MakeDate (Day t') (MakeTime hour min sec ms)))
  end.

Definition getMonth (tv : TimeValue) : option Z :=
  match tv with
  | None => None
  | Some t => Some (MonthFromTime (LocalTime t))
  end.

Definition setMonth (tv : TimeValue) (month : option Z) : TimeValue :=
  match tv, month with
  | Some t, Some m =>
      let t' := LocalTime t in
      TimeClip (UTC (MakeDate (MakeDay (YearFromTime t') m (DateFromTime t'))
                              (TimeWithinDay t')))
  | _, _ => None
  end.

End Zone.

(** [a - b] on dates: the difference of the time values, NaN if either is. *)
Definition minus (a b : TimeValue) : option Z :=
  match a, b with
  | Some x, Some y => Some (x - y)
  | _, _ => None
  end.

(** [a >= b] on dates: false as soon as one time value is NaN. *)
Definition geq (a b : TimeValue) : bool :=
  match a, b with
  | Some x, Some y => y <=? x
  | _, _ => false
  end.

End DateObj.

(* ================================================================== *)
(** * The data model                                                   *)
(* ================================================================== *)

(** A case object, with its properties in the order [handleSubmit] creates
    them: [id], the form's fields, [createdAt].  The select boxes deliver
    [caseType] and [caseStatus] as strings. *)
Module Case.

Record t : Type := mk {
  id : Z;
  caseNumber : string;
  courtName : string;
  caseType : string;
  clientName : string;
  opponentName : string;
  hearingDate : string;
  caseStatus : string;
  notes : string;
  createdAt : string
}.

End Case.

(** The state of the "Add New Case" form. *)
Module Form.

Record t : Type := mk {
  caseNumber : string;
  courtName : string;
  caseType : string;
  clientName : string;
  opponentName : string;
  hearingDate : string;
  caseStatus : string;
  notes : string
}.

Definition empty : t :=
  mk EmptyString EmptyString "Civil" EmptyString EmptyString EmptyString
     "Pending" EmptyString.

End Form.

(** [localStorage], as far as the app sees it: the item stored under the key
    ['courtCases'], and the room the origin's quota leaves for that item, in
    code units.  [setItem] throws a QuotaExceededError when the value does
    not fit. *)
Module Storage.

Record t : Type := mk {
  courtCases : option string;
  room : nat
}.

Definition getItem (s : t) : option string := courtCases s.

Definition setItem (v : string) (s : t) : option t :=
  if (String.length v <=? room s)%nat then Some (mk (Some v) (room s)) else None.

End Storage.

(** The component's state hooks, together with the parts of the browser the
    handlers act on: [localStorage], and the messages passed to [alert] and
    [console.error], latest first. *)
Record State : Type := mkState {
  cases : list Case.t;
  formData : Form.t;
  searchTerm : string;
  filterCourt : string;
  filterCaseType : string;
  showForm : bool;
  activeSection : string;
  isInitialLoad : bool;
  localStorage : Storage.t;
  alerts : list string;
  errors : list string
}.

Definition setCases (f : list Case.t -> list Case.t) (st : State) : State :=
  mkState (f (cases st)) (formData st) (searchTerm st) (filterCourt st)
          (filterCaseType st) (showForm st) (activeSection st)
          (isInitialLoad st) (localStorage st) (alerts st) (errors st).

Definition setFormData (f : Form.t) (st : State) : State :=
  mkState (cases st) f (searchTerm st) (filterCourt st)
          (filterCaseType st) (showForm st) (activeSection st)
          (isInitialLoad st) (localStorage st) (alerts st) (errors st).

Definition setShowForm (b : bool) (st : State) : State :=
  mkState (cases st) (formData st) (searchTerm st) (filterCourt st)
          (filterCaseType st) b (activeSection st)
          (isInitialLoad st) (localStorage st) (alerts st) (errors st).

Definition setIsInitialLoad (b : bool) (st : State) : State :=
  mkState (cases st) (formData st) (searchTerm st) (filterCourt st)
          (filterCaseType st) (showForm st) (activeSection st)
          b (localStorage st) (alerts st) (errors st).

Definition setLocalStorage (s : Storage.t) (st : State) : State :=
  mkState (cases st) (formData st) (searchTerm st) (filterCourt st)
          (filterCaseType st) (showForm st) (activeSection st)
          (isInitialLoad st) s (alerts st) (errors st).

Definition alert (msg : string) (st : State) : State :=
  mkState (cases st) (formData st) (searchTerm st) (filterCourt st)
          (filterCaseType st) (showForm st) (activeSection st)
          (isInitialLoad st) (localStorage st) (msg :: alerts st) (errors st).

Definition consoleError (msg : string) (st : State) : State :=
  mkState (cases st) (formData st) (searchTerm st) (filterCourt st)
          (filterCaseType st) (showForm st) (activeSection st)
          (isInitialLoad st) (localStorage st) (alerts st) (msg :: errors st).

(** The state of the first render, over a given [localStorage]. *)
Definition initialState (s : Storage.t) : State :=
  mkState [] Form.empty EmptyString EmptyString EmptyString false "dashboard"
          true s [] [].

(* ================================================================== *)
(** * JSON                                                             *)
(* ================================================================== *)

(** [JSON.stringify] and [JSON.parse] on the values the app stores: an array
    of objects whose properties are numbers and strings.  Numbers are the
    integral ones ([id] is a reading of [Date.now()]).  A text that is not
    JSON makes [parse] fail (the SyntaxError of [JSON.parse]); so does, in
    this model, a text that is JSON but no array of case objects, which the
    real [JSON.parse] returns: the model is that of [JSON.parse] on the
    texts [JSON.stringify] writes and on texts that are no JSON at their
    first token ([beginsNoJSONValue]). *)

Module JSON.

Import JSString.

Inductive value : Type :=
  | JNum (n : Z)
  | JStr (s : string).

Definition object : Type := list (string * value).

Definition quote : ascii := ascii_of_N 34.
Definition backslash : ascii := ascii_of_N 92.

Definition hexChar (d : N) : ascii :=
  if (d <? 10)%N then ascii_of_N (48 + d) else ascii_of_N (87 + d).

Definition hexVal (c : ascii) : option N :=
  let n := N_of_ascii c in
  if ((48 <=? n) && (n <=? 57))%N then Some (n - 48)%N
  else if ((97 <=? n) && (n <=? 102))%N then Some (n - 87)%N
  else if ((65 <=? n) && (n <=? 70))%N then Some (n - 55)%N
  else None.

(** ** Serialization *)

(** QuoteJSONString, one code unit at a time. *)
Definition quoteChar (c : ascii) : string :=
  let n := N_of_ascii c in
  if (n =? 8)%N then String backslash "b"
  else if (n =? 9)%N then String backslash "t"
  else if (n =? 10)%N then String backslash "n"
  else if (n =? 12)%N then String backslash "f"
  else if (n =? 13)%N then String backslash "r"
  else if (n =? 34)%N then String backslash (String quote EmptyString)
  else if (n =? 92)%N then String backslash (String backslash EmptyString)
  else if (n <? 32)%N then
    String backslash
      (String "u" (String "0" (String "0"
        (String (hexChar (n / 16)) (String (hexChar (n mod 16)) EmptyString)))))
  else String c EmptyString.

Fixpoint quoteBody (s : string) : string :=
  match s with
  | EmptyString => EmptyString
  | String c r => (quoteChar c ++ quoteBody r)%string
  end.

Definition quoteString (s : string) : string :=
  String quote (quoteBody s ++ String quote EmptyString).

(** The decimal digits of a non-negative integer, without leading zeros. *)
Fixpoint digitsOf (fuel : nat) (z : Z) : string :=
  match fuel with
  | O => String (digitChar (z mod 10)) EmptyString
  | S f =>
      if z <? 10 then String (digitChar z) EmptyString
      else (digitsOf f (z / 10) ++ String (digitChar (z mod 10)) EmptyString)%string
  end.

(** Number::toString on an integer. *)
Definition numberToString (z : Z) : string :=
  if z <? 0 then String "-" (digitsOf (Z.to_nat (Z.log2 (- z))) (- z))
  else digitsOf (Z.to_nat (Z.log2 z)) z.

Definition printValue (v : value) : string :=
  match v with
  | JNum n => numberToString n
  | JStr s => quoteString s
  end.

Definition printMember (m : string * value) : string :=
  (quoteString (fst m) ++ ":" ++ printValue (snd m))%string.

(** The elements of a list, separated by commas. *)
Fixpoint commaSep (l : list string) : string :=
  match l with
  | [] => EmptyString
  | [x] => x
  | x :: r => (x ++ "," ++ commaSep r)%string
  end.

Definition printObject (o : object) : string :=
  ("{" ++ commaSep (map printMember o) ++ "}")%string.

Definition printArray (a : list object) : string :=
  ("[" ++ commaSep (map printObject a) ++ "]")%string.

(** The own properties of a case object, in creation order. *)
Definition ofCase (c : Case.t) : object :=
  [ ("id", JNum (Case.id c));
    ("caseNumber", JStr (Case.caseNumber c));
    ("courtName", JStr (Case.courtName c));
    ("caseType", JStr (Case.caseType c));
    ("clientName", JStr (Case.clientName c));
    ("opponentName", JStr (Case.opponentName c));
    ("hearingDate", JStr (Case.hearingDate c));
    ("caseStatus", JStr (Case.caseStatus c));
    ("notes", JStr (Case.notes c));
    ("createdAt", JStr (Case.createdAt c)) ]%string.

Definition stringify (cs : list Case.t) : string :=
  printArray (map ofCase cs).

(** ** Parsing *)

Definition isWS (c : ascii) : bool :=
  let n := N_of_ascii c in
  ((n =? 32) || (n =? 9) || (n =? 10) || (n =? 13))%N.

Fixpoint skipWS (s : string) : string :=
  match s with
  | EmptyString => EmptyString
  | String c r => if isWS c then skipWS r else s
  end.

(** The next code unit must be [c]. *)
Definition expect (c : ascii) (s : string) : option string :=
  match s with
  | String d r => if (d =? c)%char then Some r else None
  | EmptyString => None
  end.

Definition startsWithChar (c : ascii) (s : string) : bool :=
  match s with
  | String d _ => (d =? c)%char
  | EmptyString => false
  end.

(** The code unit a two-character escape stands for. *)
Definition unescape (e : ascii) : option ascii :=
  let n := N_of_ascii e in
  if (n =? 34)%N then Some quote
  else if (n =? 92)%N then Some backslash
  else if (n =? 47)%N then Some "/"%char
  else if (n =? 98)%N then Some (ascii_of_N 8)
  else if (n =? 102)%N then Some (ascii_of_N 12)
  else if (n =? 110)%N then Some (ascii_of_N 10)
  else if (n =? 114)%N then Some (ascii_of_N 13)
  else if (n =? 116)%N then Some (ascii_of_N 9)
  else None.

(** The code unit of [\uXXXX]; those above 255 are not code units of this
    model. *)
Definition hex4 (h1 h2 h3 h4 : ascii) : option ascii :=
  match hexVal h1, hexVal h2, hexVal h3, hexVal h4 with
  | Some a, Some b, Some c, Some d =>
      if ((a =? 0) && (b =? 0))%N then Some (ascii_of_N (16 * c + d)) else None
  | _, _, _, _ => None
  end.

Definition consChar (c : ascii) (r : option (string * string))
  : option (string * string) :=
  match r with
  | Some (b, rest) => Some (String c b, rest)
  | None => None
  end.

(** The characters of a string literal after its opening quote, up to and
    including the closing one; returns the string and the rest of the text. *)
Fixpoint parseBody (s : string) : option (string * string) :=
  match s with
  | EmptyString => None
  | String c r =>
      if (c =? quote)%char then Some (EmptyString, r)
      else if (c =? backslash)%char then
        match r with
        | EmptyString => None
        | String e r1 =>
            if (e =? "u")%char then
              match r1 with
              | String h1 (String h2 (String h3 (String h4 r2))) =>
                  match hex4 h1 h2 h3 h4 with
                  | Some x => consChar x (parseBody r2)
                  | None => None
                  end
              | _ => None
              end
            else
              match unescape e with
              | Some x => consChar x (parseBody r1)
              | None => None
              end
        end
      else if (N_of_ascii c <? 32)%N then None
      else consChar c (parseBody r)
  end.

Definition parseString (s : string) : option (string * string) :=
  match expect quote s with
  | Some r => parseBody r
  | None => None
  end.

Definition isDigit (c : ascii) : bool :=
  match digitVal c with Some _ => true | None => false end.

(** The longest run of digits at the head of a text. *)
Fixpoint spanDigits (s : string) : list ascii * string :=
  match s with
  | EmptyString => ([], EmptyString)
  | String c r =>
      if isDigit c then let (ds, rest) := spanDigits r in (c :: ds, rest)
      else ([], s)
  end.

(** A JSON number without fraction and exponent. *)
Definition parseNumber (s : string) : option (Z * string) :=
  let neg := startsWithChar "-" s in
  let s1 := if neg then match s with String _ r => r | EmptyString => s end else s in
  let (ds, rest) := spanDigits s1 in
  match ds with
  | [] => None
  | d :: ds' =>
      if (d =? "0")%char && negb (match ds' with [] => true | _ => false end) then None
      else if startsWithChar "." rest || startsWithChar "e" rest
              || startsWithChar "E" rest then None
      else
        match digitsVal 0 ds with
        | Some v => Some (if neg then - v else v, rest)
        | None => None
        end
  end.

Definition parseValue (s : string) : option (value * string) :=
  if startsWithChar quote s then
    match parseString s with
    | Some (x, rest) => Some (JStr x, rest)
    | None => None
    end
  else
    match parseNumber s with
    | Some (n, rest) => Some (JNum n, rest)
    | None => None
    end.

(** The members of an object from its first key on, closing brace
    included.  Every member takes at least one code unit, so the length of
    the text is fuel enough. *)
Fixpoint parseMembers (fuel : nat) (s : string) : option (object * string) :=
  match fuel with
  | O => None
  | S f =>
      match parseString s with
      | None => None
      | Some (k, s1) =>
          match expect ":" (skipWS s1) with
          | None => None
          | Some s2 =>
              match parseValue (skipWS s2) with
              | None => None
              | Some (v, s3) =>
                  let s4 := skipWS s3 in
                  if startsWithChar "}" s4 then
                    match expect "}" s4 with
                    | Some rest => Some ([(k, v)], rest)
                    | None => None
                    end
                  else
                    match expect "," s4 with
                    | None => None
                    | Some s5 =>
                        match parseMembers f (skipWS s5) with
                        | Some (o, rest) => Some ((k, v) :: o, rest)
                        | None => None
                        end
                    end
              end
          end
      end
  end.

Definition parseObject (s : string) : option (object * string) :=
  match expect "{" s with
  | None => None
  | Some r =>
      let r1 := skipWS r in
      if startsWithChar "}" r1 then
        match expect "}" r1 with
        | Some rest => Some ([], rest)
        | None => None
        end
      else parseMembers (String.length r1) r1
  end.

(** The elements of an array of objects from its first element on, closing
    bracket included. *)
Fixpoint parseElements (fuel : nat) (s : string) : option (list object * string) :=
  match fuel with
  | O => None
  | S f =>
      match parseObject s with
      | None => None
      | Some (o, s1) =>
          let s2 := skipWS s1 in
          if startsWithChar "]" s2 then
            match expect "]" s2 with
            | Some rest => Some ([o], rest)
            | None => None
            end
          else
            match expect "," s2 with
            | None => None
            | Some s3 =>
                match parseElements f (skipWS s3) with
                | Some (a, rest) => Some (o :: a, rest)
                | None => None
                end
            end
      end
  end.

Definition parseArray (s : string) : option (list object * string) :=
  match expect "[" s with
  | None => None
  | Some r =>
      let r1 := skipWS r in
      if startsWithChar "]" r1 then
        match expect "]" r1 with
        | Some rest => Some ([], rest)
        | None => None
        end
      else parseElements (String.length r1) r1
  end.

(** Property lookup; of two members with one key the later one stands. *)
Fixpoint getProp (k : string) (o : object) : option value :=
  match o with
  | [] => None
  | (k', v) :: r =>
      match getProp k r with
      | Some w => Some w
      | None => if (k' =? k)%string then Some v else None
      end
  end.

Definition getNum (k : string) (o : object) : option Z :=
  match getProp k o with Some (JNum n) => Some n | _ => None end.

Definition getStr (k : string) (o : object) : option string :=
  match getProp k o with Some (JStr s) => Some s | _ => None end.

(** An object is read as a case when it has the ten properties of a case,
    with values of the right kind, and nothing else. *)
Definition toCase (o : object) : option Case.t :=
  if negb (List.length o =? 10)%nat then None else
  match getNum "id" o, getStr "caseNumber" o, getStr "courtName" o,
        getStr "caseType" o, getStr "clientName" o with
  | Some i, Some cn, Some ct, Some ty, Some cl =>
      match getStr "opponentName" o, getStr "hearingDate" o,
            getStr "caseStatus" o, getStr "notes" o, getStr "createdAt" o with
      | Some op, Some hd, Some cs, Some nt, Some ca =>
          Some (Case.mk i cn ct ty cl op hd cs nt ca)
      | _, _, _, _, _ => None
      end
  | _, _, _, _, _ => None
  end.

Fixpoint toCases (a : list object) : option (list Case.t) :=
  match a with
  | [] => Some []
  | o :: r =>
      match toCase o, toCases r with
      | Some c, Some cs => Some (c :: cs)
      | _, _ => None
      end
  end.

(** [JSON.parse] of a text holding an array of cases; [None] when the text
    is rejected. *)
Definition parse (text : string) : option (list Case.t) :=
  match parseArray (skipWS text) with
  | None => None
  | Some (a, rest) =>
      match skipWS rest with
      | EmptyString => toCases a
      | String _ _ => None
      end
  end.

End JSON.

(* ================================================================== *)
(** * Array.prototype.sort                                             *)
(* ================================================================== *)

(** [sort] is stable, and for a comparator that orders the elements
    consistently its result is determined: the one sorted arrangement in
    which elements that compare equal keep their order.  Insertion from the
    right computes it.  A comparator result of NaN counts as zero. *)

Module JSArray.

Section Sort.

Context {A : Type}.
Variable comparefn : A -> A -> option Z.

(** [x] has to come after [y]. *)
Definition after (x y : A) : bool :=
  match comparefn x y with
  | Some v => 0 <? v
  | None => false
  end.

Fixpoint insert (x : A) (l : list A) : list A :=
  match l with
  | [] => [x]
  | y :: r => if after x y then y :: insert x r else x :: l
  end.

Fixpoint sort (l : list A) : list A :=
  match l with
  | [] => []
  | x :: r => insert x (sort r)
  end.

End Sort.

(** [map] with a callback that may throw: the first exception ends it. *)
Fixpoint mapThrowing {A B : Type} (f : A -> option B) (l : list A)
  : option (list B) :=
  match l with
  | [] => Some []
  | x :: r =>
      match f x with
      | None => None
      | Some y =>
          match mapThrowing f r with
          | None => None
          | Some ys => Some (y :: ys)
          end
      end
  end.

End JSArray.

(* ================================================================== *)
(** * The component                                                    *)
(* ================================================================== *)

(** [Math.ceil (x / d)] for integers [x] and [d > 0]. *)
Definition ceilDiv (x d : Z) : Z := - ((- x) / d).

(** Persistence.  An exception of [JSON.parse] or [setItem] is caught and
    logged. *)
Definition loadCasesFromStorage (st : State) : State :=
  match Storage.getItem (localStorage st) with
  | None => st
  | Some storedCases =>
      if JSString.truthy storedCases then
        match JSON.parse storedCases with
        | Some parsedCases => setCases (fun _ => parsedCases) st
        | None => consoleError "Error loading cases from localStorage:" st
        end
      else st
  end.

Definition saveCasesToStorage (st : State) : State :=
  match Storage.setItem (JSON.stringify (cases st)) (localStorage st) with
  | Some s => setLocalStorage s st
  | None => consoleError "Error saving cases to localStorage:" st
  end.

(** The second effect: it runs after a render in which [cases] or
    [isInitialLoad] changed. *)
Definition saveEffect (st : State) : State :=
  if isInitialLoad st then st else saveCasesToStorage st.

(** Mounting: the first effect loads and clears the flag; the second one
    still sees the flag set and skips; the render that follows runs it. *)
Definition mount (s : Storage.t) : State :=
  saveEffect (setIsInitialLoad false (loadCasesFromStorage (initialState s))).

(** [handleSubmit].  [idNow] is the reading of [Date.now()], [createdNow]
    the time value of [new Date()]. *)
Definition handleSubmit (idNow createdNow : Z) (st : State) : State :=
  let f := formData st in
  if negb (JSString.truthy (Form.caseNumber f))
     || negb (JSString.truthy (Form.courtName f))
     || negb (JSString.truthy (Form.clientName f))
     || negb (JSString.truthy (Form.hearingDate f))
  then
    alert "Please fill in all required fields (Case Number, Court Name, Client Name, Hearing Date)" st
  else
    let newCase :=
      Case.mk idNow (Form.caseNumber f) (Form.courtName f) (Form.caseType f)
              (Form.clientName f) (Form.opponentName f) (Form.hearingDate f)
              (Form.caseStatus f) (Form.notes f)
              (DateObj.isoString createdNow) in
    alert "Case added successfully!"
      (setShowForm false
        (setFormData Form.empty
          (setCases (fun prev => prev ++ [newCase]) st))).

(** [deleteCase]; [confirmed] is the answer of [window.confirm]. *)
Definition deleteCase (confirmed : bool) (caseId : Z) (st : State) : State :=
  if confirmed
  then setCases (filter (fun caseItem => negb (Case.id caseItem =? caseId))) st
  else st.

(** [getFilteredCases]. *)
Definition matchesFilters (searchTerm filterCourt filterCaseType : string)
    (caseItem : Case.t) : bool :=
  let matchesSearch :=
    (searchTerm =? EmptyString)%string
    || JSString.includes (JSString.toLowerCase (Case.caseNumber caseItem))
                         (JSString.toLowerCase searchTerm)
    || JSString.includes (JSString.toLowerCase (Case.clientName caseItem))
                         (JSString.toLowerCase searchTerm) in
  let matchesCourt :=
    (filterCourt =? EmptyString)%string
    || (Case.courtName caseItem =? filterCourt)%string in
  let matchesCaseType :=
    (filterCaseType =? EmptyString)%string
    || (Case.caseType caseItem =? filterCaseType)%string in
  matchesSearch && matchesCourt && matchesCaseType.

Definition getFilteredCases (st : State) : list Case.t :=
  filter (matchesFilters (searchTerm st) (filterCourt st) (filterCaseType st))
         (cases st).

Section Zone.

(** The offset of local time from UTC, in milliseconds. *)
Variable LocalTZA : Z.

(** The hearing date one month on, as [moveToNextHearing] computes it:
    parsed, the local month incremented, printed in UTC and cut at the T.
    [None] is the RangeError of [toISOString]. *)
Definition nextHearingDate (hearingDate : string) : option string :=
  let currentDate := DateObj.parse hearingDate in
  let nextDate := currentDate in
  let nextDate :=
    DateObj.setMonth LocalTZA nextDate
      (option_map (fun m => m + 1) (DateObj.getMonth LocalTZA nextDate)) in
  option_map (JSString.splitHead "T") (DateObj.toISOString nextDate).

Definition advance (caseId : Z) (caseItem : Case.t) : option Case.t :=
  if Case.id caseItem =? caseId then
    match nextHearingDate (Case.hearingDate caseItem) with
    | Some formattedDate =>
        Some (Case.mk (Case.id caseItem) (Case.caseNumber caseItem)
                      (Case.courtName caseItem) (Case.caseType caseItem)
                      (Case.clientName caseItem) (Case.opponentName caseItem)
                      formattedDate "Adjourned"
                      (Case.notes caseItem) (Case.createdAt caseItem))
    | None => None
    end
  else Some caseItem.

(** [moveToNextHearing]; [None] when the updater throws. *)
Definition moveToNextHearing (caseId : Z) (st : State) : option State :=
  match JSArray.mapThrowing (advance caseId) (cases st) with
  | Some updated =>
      Some (alert "Hearing date moved to next month. Status updated to Adjourned."
                  (setCases (fun _ => updated) st))
  | None => None
  end.

(** A date string brought to local midnight: [new Date(s)] followed by
    [setHours(0, 0, 0, 0)]. *)
Definition midnightOf (s : string) : JSDate.TimeValue :=
  DateObj.setHours LocalTZA (DateObj.parse s) 0 0 0 0.

(** Local midnight of the current day; [now] is the time value of
    [new Date()]. *)
Definition todayMidnight (now : Z) : JSDate.TimeValue :=
  DateObj.setHours LocalTZA (Some now) 0 0 0 0.

Definition byHearingDate (a b : Case.t) : option Z :=
  DateObj.minus (DateObj.parse (Case.hearingDate a))
                (DateObj.parse (Case.hearingDate b)).

(** [getUpcomingHearings]. *)
Definition getUpcomingHearings (now : Z) (st : State) : list Case.t :=
  let today := todayMidnight now in
  JSArray.sort byHearingDate
    (filter (fun caseItem =>
               let hearingDate := midnightOf (Case.hearingDate caseItem) in
               DateObj.geq hearingDate today)
            (cases st)).

(** [isWithin7Days]. *)
Definition isWithin7Days (now : Z) (hearingDate : string) : bool :=
  let today := todayMidnight now in
  let hearing := midnightOf hearingDate in
  let diffTime := DateObj.minus hearing today in
  match option_map (fun d => ceilDiv d JSDate.msPerDay) diffTime with
  | Some diffDays => (0 <=? diffDays) && (diffDays <=? 7)
  | None => false
  end.

End Zone.

(** The search box and the two filter boxes hand their value to these
    setters. *)
Definition setSearchTerm (value : string) (st : State) : State :=
  mkState (cases st) (formData st) value (filterCourt st)
          (filterCaseType st) (showForm st) (activeSection st)
          (isInitialLoad st) (localStorage st) (alerts st) (errors st).

Definition setFilterCourt (value : string) (st : State) : State :=
  mkState (cases st) (formData st) (searchTerm st) value
          (filterCaseType st) (showForm st) (activeSection st)
          (isInitialLoad st) (localStorage st) (alerts st) (errors st).

Definition setFilterCaseType (value : string) (st : State) : State :=
  mkState (cases st) (formData st) (searchTerm st) (filterCourt st)
          value (showForm st) (activeSection st)
          (isInitialLoad st) (localStorage st) (alerts st) (errors st).

(** [handleInputChange].  The inputs of the form carry these eight names,
    and the handler writes the value under the name of its input. *)
Module Field.

Inductive t : Type :=
  | caseNumber | courtName | caseType | clientName
  | opponentName | hearingDate | caseStatus | notes.

End Field.

Definition setField (name : Field.t) (value : string) (prev : Form.t) : Form.t :=
  match name with
  | Field.caseNumber =>
      Form.mk value (Form.courtName prev) (Form.caseType prev)
              (Form.clientName prev) (Form.opponentName prev)
              (Form.hearingDate prev) (Form.caseStatus prev) (Form.notes prev)
  | Field.courtName =>
      Form.mk (Form.caseNumber prev) value (Form.caseType prev)
              (Form.clientName prev) (Form.opponentName prev)
              (Form.hearingDate prev) (Form.caseStatus prev) (Form.notes prev)
  | Field.caseType =>
      Form.mk (Form.caseNumber prev) (Form.courtName prev) value
              (Form.clientName prev) (Form.opponentName prev)
              (Form.hearingDate prev) (Form.caseStatus prev) (Form.notes prev)
  | Field.clientName =>
      Form.mk (Form.caseNumber prev) (Form.courtName prev) (Form.caseType prev)
              value (Form.opponentName prev)
              (Form.hearingDate prev) (Form.caseStatus prev) (Form.notes prev)
  | Field.opponentName =>
      Form.mk (Form.caseNumber prev) (Form.courtName prev) (Form.caseType prev)
              (Form.clientName prev) value
              (Form.hearingDate prev) (Form.caseStatus prev) (Form.notes prev)
  | Field.hearingDate =>
      Form.mk (Form.caseNumber prev) (Form.courtName prev) (Form.caseType prev)
              (Form.clientName prev) (Form.opponentName prev)
              value (Form.caseStatus prev) (Form.notes prev)
  | Field.caseStatus =>
      Form.mk (Form.caseNumber prev) (Form.courtName prev) (Form.caseType prev)
              (Form.clientName prev) (Form.opponentName prev)
              (Form.hearingDate prev) value (Form.notes prev)
  | Field.notes =>
      Form.mk (Form.caseNumber prev) (Form.courtName prev) (Form.caseType prev)
              (Form.clientName prev) (Form.opponentName prev)
              (Form.hearingDate prev) (Form.caseStatus prev) value
  end.

Definition handleInputChange (name : Field.t) (value : string) (st : State)
  : State :=
  setFormData (setField name value (formData st)) st.

(** [getUniqueCourts].  A [Set] built from an array keeps the first
    occurrence of every value, in order; [sort] without a comparator orders
    strings by their code units. *)
Fixpoint setFrom (seen l : list string) : list string :=
  match l with
  | [] => []
  | x :: r =>
      if existsb (String.eqb x) seen then setFrom seen r
      else x :: setFrom (x :: seen) r
  end.

Definition defaultCompare (x y : string) : option Z :=
  Some (if String.ltb x y then -1 else if String.ltb y x then 1 else 0).

Definition getUniqueCourts (st : State) : list string :=
  let courts := map Case.courtName (cases st) in
  JSArray.sort defaultCompare (setFrom [] courts).

(** The days left that a reminder card shows: the hearing's time value
    minus the current time, in days, rounded up. *)
Definition daysRemaining (now : Z) (hearingDate : string) : option Z :=
  option_map (fun d => ceilDiv d JSDate.msPerDay)
             (DateObj.minus (DateObj.parse hearingDate) (Some now)).

(* ================================================================== *)
(** * Notions of the specification                                     *)
(* ================================================================== *)

(** A calendar date as the date input delivers it and the data model
    demands it: ten code units [YYYY-MM-DD] naming a day that exists. *)
Definition isCalendarDate (s : string) : bool :=
  (String.length s =? 10)%nat &&
  match DateObj.parse s with Some _ => true | None => false end.

(** The day a hearing date names, as a number of days since the epoch. *)
Definition hearingDay (s : string) : option Z :=
  option_map JSDate.Day (DateObj.parse s).

(** The day it is, on the local calendar, at time [now]. *)
Definition localDay (LocalTZA now : Z) : Z := JSDate.Day (now + LocalTZA).

(** [l'] is [l] with some elements left out, the others in their order. *)
Inductive Subseq {A : Type} : list A -> list A -> Prop :=
  | Subseq_nil : Subseq [] []
  | Subseq_skip : forall x l' l, Subseq l' l -> Subseq l' (x :: l)
  | Subseq_keep : forall x l' l, Subseq l' l -> Subseq (x :: l') (x :: l).





(** The case that differs from [c] in the hearing date and the status. *)
Definition rescheduled (c : Case.t) (date status : string) : Case.t :=
  Case.mk (Case.id c) (Case.caseNumber c) (Case.courtName c) (Case.caseType c)
          (Case.clientName c) (Case.opponentName c) date status
          (Case.notes c) (Case.createdAt c).

(** The four required fields of the form are filled in. *)
Definition requiredFilled (f : Form.t) : Prop :=
  Form.caseNumber f <> EmptyString /\ Form.courtName f <> EmptyString /\
  Form.clientName f <> EmptyString /\ Form.hearingDate f <> EmptyString.

(** Cases whose hearing falls on day [d]. *)
Definition onDay (d : Z) (c : Case.t) : bool :=
  match hearingDay (Case.hearingDate c) with
  | Some d' => d' =? d
  | None => false
  end.

(** [a]'s hearing is not later than [b]'s. *)
Definition notLater (a b : Case.t) : Prop :=
  exists da db,
    hearingDay (Case.hearingDate a) = Some da /\
    hearingDay (Case.hearingDate b) = Some db /\ da <= db.

(** The case [moveToNextHearing] puts in the place of [c] when its updater
    does not throw. *)
Definition advanced (LocalTZA caseId : Z) (c : Case.t) : Case.t :=
  match advance LocalTZA caseId c with
  | Some c' => c'
  | None => c
  end.


(** A fresh session over the storage a state leaves behind: the state of
    the first render, after [loadCasesFromStorage]. *)
Definition reloaded (st : State) : State :=
  loadCasesFromStorage (initialState (localStorage st)).

(** By how many days the local-midnight reading of a date string falls
    before the day the string names: the string is read as midnight UTC,
    which west of Greenwich is still the evening before. *)
Definition dayShift (LocalTZA : Z) : Z := if 0 <=? LocalTZA then 0 else 1.

(** Sample data: a filled-in form, a case, and a state holding given
    cases over an empty storage with [room] code units left. *)
Definition sampleForm : Form.t :=
  Form.mk "CV-AB-2024" "High Court" "Civil" "Abdul Rahman" EmptyString
          "2024-01-31" "Closed" EmptyString.

Definition sampleCase (i : Z) (date : string) : Case.t :=
  Case.mk i "CV-AB-2024" "High Court" "Civil" "Abdul Rahman" EmptyString
          date "Closed" EmptyString "2023-11-14T22:13:20.000Z".

Definition sampleState (room : nat) (cs : list Case.t) : State :=
  mkState cs sampleForm EmptyString EmptyString EmptyString true "dashboard"
          false (Storage.mk None room) [] [].

(** The date string of year [y], month [m] (1 to 12) and day [d], for a
    year of four digits. *)
Definition isoDate (y m d : Z) : string :=
  (JSString.padDigits 4 y ++ "-" ++ JSString.padDigits 2 m ++ "-" ++
   JSString.padDigits 2 d)%string.



(** A text that is no JSON text at its first token: after the white space
    it is at its end, or it goes on with a code unit that begins no JSON
    value (no bracket, brace, quote, sign or digit, and none of the letters
    t, f and n that begin the three literals).  [JSON.parse] throws a
    SyntaxError on every such text. *)
Definition beginsNoJSONValue (text : string) : bool :=
  match JSON.skipWS text with
  | EmptyString => true
  | String c _ =>
      negb (JSON.isDigit c
            || existsb (Ascii.eqb c)
                 [ "["%char; "{"%char; JSON.quote; "-"%char;
                   "t"%char; "f"%char; "n"%char ])
  end.

(** The value of a field of the form. *)
Definition getField (name : Field.t) (f : Form.t) : string :=
  match name with
  | Field.caseNumber => Form.caseNumber f
  | Field.courtName => Form.courtName f
  | Field.caseType => Form.caseType f
  | Field.clientName => Form.clientName f
  | Field.opponentName => Form.opponentName f
  | Field.hearingDate => Form.hearingDate f
  | Field.caseStatus => Form.caseStatus f
  | Field.notes => Form.notes f
  end.

(** A text ends a JSON number when it goes on with the comma or the brace
    that follows a member (and so with no digit, fraction or exponent). *)
Definition endsNumber (rest : string) : Prop :=
  JSON.startsWithChar "," rest = true \/ JSON.startsWithChar "}" rest = true.

(* ================================================================== *)
(** * Proofs: calendar arithmetic                                      *)
(* ================================================================== *)
Section CalendarFacts.

Import JSDate.

Lemma DayFromYear_succ y : DayFromYear (y + 1) = DayFromYear y + DaysInYear y.
Proof.
  unfold DayFromYear, DaysInYear.
  replace (y + 1 - 1970) with (y - 1970 + 1) by lia.
  destruct (Z.eqb_spec (y mod 4) 0), (Z.eqb_spec (y mod 100) 0),
           (Z.eqb_spec (y mod 400) 0); cbn [negb];
    Z.to_euclidean_division_equations; lia.
Qed.

Lemma DaysInYear_cases y : DaysInYear y = 365 \/ DaysInYear y = 366.
Proof.
  unfold DaysInYear.
  destruct (y mod 4 =? 0), (y mod 100 =? 0), (y mod 400 =? 0); cbn; auto.
Qed.

Lemma DayFromYear_mono a b : a <= b -> DayFromYear a <= DayFromYear b.
Proof.
  unfold DayFromYear. intros. Z.to_euclidean_division_equations; lia.
Qed.

Lemma DayFromYear_lt a b : a < b -> DayFromYear a < DayFromYear b.
Proof.
  intros Hab.
  assert (H : DayFromYear (a + 1) <= DayFromYear b) by (apply DayFromYear_mono; lia).
  rewrite DayFromYear_succ in H. destruct (DaysInYear_cases a); lia.
Qed.

(** [yearOfDay] meets the definition of YearFromTime: the year whose first
    day is the last first-of-year not after [d]. *)
Lemma yearOfDay_spec d :
  DayFromYear (yearOfDay d) <= d < DayFromYear (yearOfDay d + 1).
Proof.
  unfold yearOfDay.
  set (y := 1970 + 400 * d / 146097).
  assert (Hlo : DayFromYear (y - 1) <= d).
  { unfold DayFromYear, y. Z.to_euclidean_division_equations; lia. }
  assert (Hhi : d < DayFromYear (y + 2)).
  { unfold DayFromYear, y. Z.to_euclidean_division_equations; lia. }
  destruct (Z.ltb_spec d (DayFromYear y)).
  - replace (y - 1 + 1) with y by lia. lia.
  - destruct (Z.leb_spec (DayFromYear (y + 1)) d).
    + replace (y + 1 + 1) with (y + 2) by lia. lia.
    + lia.
Qed.

Lemma yearOfDay_largest d y : DayFromYear y <= d -> y <= yearOfDay d.
Proof.
  intros H. destruct (Z.le_gt_cases y (yearOfDay d)) as [|Hgt]; [assumption|].
  pose proof (yearOfDay_spec d) as [_ Hs].
  assert (DayFromYear (yearOfDay d + 1) <= DayFromYear y)
    by (apply DayFromYear_mono; lia).
  lia.
Qed.

Lemma yearOfDay_below d y : d < DayFromYear y -> yearOfDay d < y.
Proof.
  intros H. destruct (Z.lt_ge_cases (yearOfDay d) y) as [|Hge]; [assumption|].
  pose proof (yearOfDay_spec d) as [Hs _].
  assert (DayFromYear y <= DayFromYear (yearOfDay d))
    by (apply DayFromYear_mono; lia).
  lia.
Qed.

Lemma DayWithinYear_bounds t : 0 <= DayWithinYear t <= 365.
Proof.
  unfold DayWithinYear, YearFromTime.
  pose proof (yearOfDay_spec (Day t)) as [Hlo Hhi].
  rewrite DayFromYear_succ in Hhi.
  destruct (DaysInYear_cases (yearOfDay (Day t))); lia.
Qed.

Lemma InLeapYear_cases t : InLeapYear t = 0 \/ InLeapYear t = 1.
Proof. unfold InLeapYear. destruct (_ =? _); auto. Qed.

Lemma MonthFromTime_bounds t : 0 <= MonthFromTime t <= 11.
Proof.
  unfold MonthFromTime.
  repeat match goal with |- context [if ?b then _ else _] => destruct b end; lia.
Qed.

Lemma DateFromTime_bounds t : -400 <= DateFromTime t <= 400.
Proof.
  pose proof (DayWithinYear_bounds t). pose proof (InLeapYear_cases t).
  unfold DateFromTime. destruct (MonthFromTime t) as [|p|p]; try lia.
  do 4 (destruct p as [p|p|]; try lia).
Qed.

Lemma daysBeforeMonth_bounds leap mn :
  0 <= leap <= 1 -> 0 <= daysBeforeMonth leap mn <= 335.
Proof.
  intros. unfold daysBeforeMonth. destruct mn as [|p|p]; try lia.
  do 4 (destruct p as [p|p|]; try lia).
Qed.

Lemma MakeDay_bounds y m d :
  -2 <= y <= 10001 -> 0 <= m <= 12 -> -400 <= d <= 400 ->
  -721000 <= MakeDay y m d <= 2935000.
Proof.
  intros Hy Hm Hd. unfold MakeDay.
  assert (Hq : 0 <= m / 12 <= 1) by (Z.to_euclidean_division_equations; lia).
  set (ym := y + m / 12).
  assert (Hlo : DayFromYear (-2) <= DayFromYear ym) by (apply DayFromYear_mono; lia).
  assert (Hhi : DayFromYear ym <= DayFromYear 10002) by (apply DayFromYear_mono; lia).
  change (DayFromYear (-2)) with (-720258) in Hlo.
  change (DayFromYear 10002) with 2933628 in Hhi.
  match goal with |- context [daysBeforeMonth ?l ?n] =>
    assert (Hb : 0 <= daysBeforeMonth l n <= 335)
      by (apply daysBeforeMonth_bounds; destruct (_ =? _); lia) end.
  lia.
Qed.

End CalendarFacts.

Section DateFacts.

Import JSDate JSString.

Lemma digitVal_range c d : digitVal c = Some d -> 0 <= d <= 9.
Proof.
  unfold digitVal. intros H.
  destruct (Z.leb_spec 48 (Z.of_N (N_of_ascii c))); cbn in H; [|discriminate].
  destruct (Z.leb_spec (Z.of_N (N_of_ascii c)) 57); inversion H; lia.
Qed.

Lemma digitsVal_snoc cs : forall acc c,
  digitsVal acc (cs ++ [c]) =
  match digitsVal acc cs, digitVal c with
  | Some v, Some d => Some (10 * v + d)
  | _, _ => None
  end.
Proof.
  induction cs as [|x cs IH]; intros acc c; cbn.
  - destruct (digitVal c); reflexivity.
  - destruct (digitVal x); [apply IH|reflexivity].
Qed.

Lemma digitsVal_range cs : forall acc v,
  0 <= acc -> digitsVal acc cs = Some v ->
  0 <= v < (acc + 1) * 10 ^ Z.of_nat (List.length cs).
Proof.
  induction cs as [|x cs IH]; intros acc v Hacc H; cbn [digitsVal] in H.
  - inversion H; subst. cbn. lia.
  - destruct (digitVal x) as [d|] eqn:Hd; [|discriminate].
    apply digitVal_range in Hd.
    apply IH in H; [|lia].
    cbn [List.length]. rewrite Nat2Z.inj_succ, Z.pow_succ_r by lia.
    assert (0 < 10 ^ Z.of_nat (List.length cs)) by (apply Z.pow_pos_nonneg; lia).
    nia.
Qed.

(** A calendar date parses to the midnight UTC of a day between the years
    0 and 9999. *)
Lemma parse_calendar s :
  isCalendarDate s = true ->
  exists d, DateObj.parse s = Some (d * msPerDay) /\ -719528 <= d <= 2933262.
Proof.
  unfold isCalendarDate. intros H. apply andb_prop in H as [Hlen Hp].
  apply Nat.eqb_eq in Hlen.
  do 10 (destruct s as [|? s]; [discriminate Hlen|]).
  destruct s; [|discriminate Hlen]. clear Hlen.
  unfold DateObj.parse in *. cbn [list_ascii_of_string] in *.
  destruct ((_ =? _)%char && _); [|discriminate].
  unfold DateObj.dateOnly in *.
  destruct (digitsVal 0 [a; a0; a1; a2]) as [y|] eqn:Hy; [|discriminate].
  destruct (digitsVal 0 [a4; a5]) as [m|] eqn:Hm; [|discriminate].
  destruct (digitsVal 0 [a7; a8]) as [d|] eqn:Hd; [|discriminate].
  apply digitsVal_range in Hy; [|lia]. cbn in Hy.
  rewrite Z.mul_1_l in *.
  destruct (Z.leb_spec 1 m); [|discriminate].
  destruct (Z.leb_spec m 12); [|discriminate].
  destruct (Z.leb_spec 1 d); [|discriminate].
  destruct (Z.leb_spec d (DateObj.DaysInMonth y m)); [|discriminate].
  cbn [andb] in *.
  assert (Hdm : DateObj.DaysInMonth y m <= 31).
  { unfold DateObj.DaysInMonth.
    destruct (DaysInYear y =? 366);
      destruct m as [|p|p]; cbn; try lia;
      do 4 (try (destruct p as [p|p|]; cbn; try lia)). }
  assert (Hmd : -719528 <= MakeDay y (m - 1) d <= 2933262).
  { unfold MakeDay.
    replace ((m - 1) / 12) with 0 by (Z.to_euclidean_division_equations; lia).
    rewrite Z.add_0_r.
    assert (Hlo : DayFromYear 0 <= DayFromYear y) by (apply DayFromYear_mono; lia).
    assert (Hhi : DayFromYear y <= DayFromYear 9999) by (apply DayFromYear_mono; lia).
    change (DayFromYear 0) with (-719528) in Hlo.
    change (DayFromYear 9999) with 2932532 in Hhi.
    match goal with |- context [daysBeforeMonth ?l ?n] =>
      assert (Hb : 0 <= daysBeforeMonth l n <= 335)
        by (apply daysBeforeMonth_bounds; destruct (_ =? _); lia) end.
    lia. }
  exists (MakeDay y (m - 1) d). split; [|assumption].
  unfold TimeClip, MakeDate.
  destruct (Z.ltb_spec maxTime (Z.abs (MakeDay y (m - 1) d * msPerDay + 0))) as [Hc|Hc].
  - unfold maxTime, msPerDay in Hc. lia.
  - f_equal. lia.
Qed.

End DateFacts.

Section ParseFacts.

Import JSDate JSString.

Lemma dateOnly_midnight sg ys ms ds t :
  DateObj.dateOnly sg ys ms ds = Some t ->
  exists d, t = d * msPerDay /\ - maxTime <= t <= maxTime.
Proof.
  unfold DateObj.dateOnly.
  destruct (digitsVal 0 ys) as [y|]; [|discriminate].
  destruct (digitsVal 0 ms) as [m|]; [|discriminate].
  destruct (digitsVal 0 ds) as [d|]; [|discriminate].
  destruct (_ && _); [|discriminate].
  unfold TimeClip, MakeDate. rewrite Z.add_0_r.
  destruct (Z.ltb_spec maxTime (Z.abs (MakeDay (sg * y) (m - 1) d * msPerDay)));
    [discriminate|].
  intros H'; inversion H'; subst. eexists; split; [reflexivity|lia].
Qed.

(** Every date string the model reads denotes the midnight UTC of a day. *)
Lemma parse_midnight s t :
  DateObj.parse s = Some t ->
  exists d, t = d * msPerDay /\ - maxTime <= t <= maxTime.
Proof.
  unfold DateObj.parse.
  destruct (list_ascii_of_string s) as [|c0 l]; [discriminate|].
  do 9 (destruct l as [|? l]; [discriminate|]).
  destruct l as [|? l].
  { destruct (_ && _); [apply dateOnly_midnight|discriminate]. }
  do 2 (destruct l as [|? l]; [discriminate|]).
  destruct l as [|? l]; [|discriminate].
  destruct (_ && _); [|discriminate].
  destruct (c0 =? "+")%char; [apply dateOnly_midnight|].
  destruct (c0 =? "-")%char; [|discriminate].
  destruct (digitsVal 0 _) as [[| |]|]; try discriminate; apply dateOnly_midnight.
Qed.

Lemma Day_midnight d : Day (d * msPerDay) = d.
Proof. unfold Day, msPerDay. apply Z.div_mul. lia. Qed.

Lemma hearingDay_parse s d :
  hearingDay s = Some d <-> DateObj.parse s = Some (d * msPerDay).
Proof.
  unfold hearingDay. split.
  - destruct (DateObj.parse s) as [t|] eqn:Hp; [|discriminate].
    destruct (parse_midnight _ _ Hp) as (d' & -> & _).
    cbn. rewrite Day_midnight. congruence.
  - intros ->. cbn. now rewrite Day_midnight.
Qed.

End ParseFacts.

Section ZoneFacts.

Import JSDate.

Variable LocalTZA : Z.

Lemma Day_east d :
  0 <= LocalTZA < msPerDay -> Day (d * msPerDay + LocalTZA) = d.
Proof.
  intros H. unfold Day, msPerDay in *.
  symmetry. apply Z.div_unique with (r := LocalTZA); lia.
Qed.

Lemma Day_west d :
  - msPerDay <= LocalTZA < 0 -> Day (d * msPerDay + LocalTZA) = d - 1.
Proof.
  intros H. unfold Day, msPerDay in *.
  symmetry. apply Z.div_unique with (r := LocalTZA + 86400000); lia.
Qed.

Lemma TimeWithinDay_east d :
  0 <= LocalTZA < msPerDay -> TimeWithinDay (d * msPerDay + LocalTZA) = LocalTZA.
Proof.
  intros H. unfold TimeWithinDay, msPerDay in *.
  symmetry. apply Z.mod_unique with (q := d); lia.
Qed.

Lemma TimeWithinDay_west d :
  - msPerDay <= LocalTZA < 0 ->
  TimeWithinDay (d * msPerDay + LocalTZA) = LocalTZA + msPerDay.
Proof.
  intros H. unfold TimeWithinDay, msPerDay in *.
  symmetry. apply Z.mod_unique with (q := d - 1); lia.
Qed.

Lemma TimeClip_inside t : - maxTime <= t <= maxTime -> TimeClip t = Some t.
Proof.
  intros H. unfold TimeClip.
  destruct (Z.ltb_spec maxTime (Z.abs t)); [lia|reflexivity].
Qed.

Lemma TimeClip_Some t u : TimeClip t = Some u -> u = t /\ - maxTime <= t <= maxTime.
Proof.
  unfold TimeClip.
  destruct (Z.ltb_spec maxTime (Z.abs t)); [discriminate|].
  intros H'; inversion H'; lia.
Qed.

(** Local midnight of the current day. *)
Lemma todayMidnight_val now :
  0 <= now <= maxTime -> - msPerDay < LocalTZA < msPerDay ->
  todayMidnight LocalTZA now = Some (localDay LocalTZA now * msPerDay - LocalTZA).
Proof.
  intros Hn Hz.
  unfold todayMidnight, DateObj.setHours, DateObj.LocalTime, DateObj.UTC,
    MakeDate, MakeTime, localDay.
  rewrite TimeClip_inside; [f_equal; lia|].
  unfold Day, maxTime, msPerDay in *.
  Z.to_euclidean_division_equations; lia.
Qed.

(** Moving a valid calendar date one month on never leaves the range of
    time values, so [toISOString] does not throw. *)
Lemma nextHearingDate_total s :
  - msPerDay < LocalTZA < msPerDay -> isCalendarDate s = true ->
  exists s', nextHearingDate LocalTZA s = Some s'.
Proof.
  intros Hz Hs. destruct (parse_calendar s Hs) as (d & Hp & Hd).
  unfold nextHearingDate. rewrite Hp.
  cbn [DateObj.getMonth option_map DateObj.setMonth].
  unfold DateObj.LocalTime, DateObj.UTC.
  set (t' := d * msPerDay + LocalTZA).
  assert (HD : d - 1 <= Day t' <= d).
  { unfold t', Day, msPerDay in *. Z.to_euclidean_division_equations; lia. }
  assert (Hy : -2 <= YearFromTime t' <= 10001).
  { unfold YearFromTime. split.
    - apply yearOfDay_largest. change (DayFromYear (-2)) with (-720258). lia.
    - apply Z.lt_succ_r. apply yearOfDay_below.
      change (DayFromYear (Z.succ 10001)) with 2933628. lia. }
  pose proof (MonthFromTime_bounds t') as Hm.
  pose proof (DateFromTime_bounds t') as Hdt.
  pose proof (MakeDay_bounds (YearFromTime t') (MonthFromTime t' + 1)
                (DateFromTime t') Hy ltac:(lia) Hdt) as Hmd.
  assert (Htw : 0 <= TimeWithinDay t' < msPerDay).
  { unfold TimeWithinDay, msPerDay. apply Z.mod_pos_bound. lia. }
  rewrite TimeClip_inside.
  - cbn. eexists; reflexivity.
  - unfold MakeDate, maxTime, msPerDay in *. lia.
Qed.

End ZoneFacts.

Section AdvanceFacts.
Import JSDate.
Variable LocalTZA : Z.
Hypothesis zone : - msPerDay < LocalTZA < msPerDay.

Lemma calendar_fields_of_day t d :
  Day t = d ->
  YearFromTime t = yearOfDay d /\
  MonthFromTime t = MonthFromTime (d * msPerDay) /\
  DateFromTime t = DateFromTime (d * msPerDay).
Proof.
  intros H.
  unfold DateFromTime, MonthFromTime, DayWithinYear, InLeapYear, YearFromTime.
  rewrite Day_midnight, H. auto.
Qed.

(** [setMonth] to the month after the current one, in terms of the local
    day [D] the time value falls on. *)
Lemma setMonth_next t D :
  Day (t + LocalTZA) = D ->
  DateObj.setMonth LocalTZA (Some t)
    (option_map (fun m => m + 1) (DateObj.getMonth LocalTZA (Some t))) =
  TimeClip (MakeDay (yearOfDay D) (MonthFromTime (D * msPerDay) + 1)
                    (DateFromTime (D * msPerDay)) * msPerDay
            + TimeWithinDay (t + LocalTZA) - LocalTZA).
Proof.
  intros HD.
  destruct (calendar_fields_of_day (t + LocalTZA) D HD) as (Hy & Hm & Hd).
  unfold DateObj.setMonth, DateObj.getMonth, option_map, DateObj.LocalTime,
    DateObj.UTC, MakeDate.
  rewrite Hy, Hm, Hd. reflexivity.
Qed.

Lemma parse_2024_01_31 : DateObj.parse "2024-01-31" = Some (19753 * msPerDay).
Proof. vm_compute. reflexivity. Qed.

Lemma iso_2024_03_02 :
  option_map (JSString.splitHead "T") (DateObj.toISOString (TimeClip (19784 * msPerDay)))
  = Some "2024-03-02"%string.
Proof. vm_compute. reflexivity. Qed.

Lemma nextHearingDate_2024_01_31 :
  nextHearingDate LocalTZA "2024-01-31" = Some "2024-03-02"%string.
Proof.
  unfold nextHearingDate. rewrite parse_2024_01_31.
  destruct (Z.le_gt_cases 0 LocalTZA) as [He|Hw].
  - rewrite (setMonth_next _ 19753) by (apply Day_east; lia).
    rewrite TimeWithinDay_east by lia.
    replace (MakeDay (yearOfDay 19753) (MonthFromTime (19753 * msPerDay) + 1)
               (DateFromTime (19753 * msPerDay))) with 19784
      by (vm_compute; reflexivity).
    replace (19784 * msPerDay + LocalTZA - LocalTZA) with (19784 * msPerDay) by lia.
    exact iso_2024_03_02.
  - rewrite (setMonth_next _ 19752) by (apply Day_west; lia).
    rewrite TimeWithinDay_west by lia.
    replace (MakeDay (yearOfDay 19752) (MonthFromTime (19752 * msPerDay) + 1)
               (DateFromTime (19752 * msPerDay))) with 19783
      by (vm_compute; reflexivity).
    replace (19783 * msPerDay + (LocalTZA + msPerDay) - LocalTZA)
      with (19784 * msPerDay) by lia.
    exact iso_2024_03_02.
Qed.
End AdvanceFacts.

(* ================================================================== *)
(** * Proofs: strings                                                  *)
(* ================================================================== *)

Section StringFacts.

Import JSString.
Local Open Scope string_scope.

Lemma truthy_true s : truthy s = true <-> s <> EmptyString.
Proof. destruct s; cbn; split; congruence. Qed.

Lemma truthy_false s : truthy s = false <-> s = EmptyString.
Proof. destruct s; cbn; split; congruence. Qed.











Lemma toLowerCase_idem s : toLowerCase (toLowerCase s) = toLowerCase s.
Proof.
  induction s as [|c s IH]; cbn; [reflexivity|]. rewrite IH. f_equal.
  destruct c as [[] [] [] [] [] [] [] []]; reflexivity.
Qed.

Lemma toLowerCase_length s : String.length (toLowerCase s) = String.length s.
Proof. induction s; cbn; congruence. Qed.

End StringFacts.

(* ================================================================== *)
(** * Proofs: sorting                                                  *)
(* ================================================================== *)

Section SortFacts.

Context {A : Type}.
Variable comparefn : A -> A -> option Z.

Local Abbreviation after := (JSArray.after comparefn).
Local Abbreviation insert := (JSArray.insert comparefn).
Local Abbreviation sort := (JSArray.sort comparefn).

Lemma insert_perm x l : Permutation (x :: l) (insert x l).
Proof.
  induction l as [|y l IH]; cbn; [reflexivity|].
  destruct (after x y); [|reflexivity].
  rewrite perm_swap. now apply perm_skip.
Qed.

Lemma sort_perm l : Permutation l (sort l).
Proof.
  induction l as [|x l IH]; cbn; [constructor|].
  rewrite <- insert_perm. now apply perm_skip.
Qed.

Lemma sort_In l x : In x (sort l) <-> In x l.
Proof.
  split; apply Permutation_in; [symmetry|]; apply sort_perm.
Qed.

Lemma sort_length l : List.length (sort l) = List.length l.
Proof. symmetry. apply Permutation_length, sort_perm. Qed.

(** Only the comparisons between elements of the array matter. *)
Lemma insert_ext comparefn' x l :
  (forall y, In y l -> after x y = JSArray.after comparefn' x y) ->
  insert x l = JSArray.insert comparefn' x l.
Proof.
  induction l as [|y l IH]; intros H; cbn; [reflexivity|].
  rewrite <- (H y) by (left; reflexivity).
  destruct (after x y); [|reflexivity].
  f_equal. apply IH. intros z Hz. apply H. now right.
Qed.

Lemma sort_ext comparefn' l :
  (forall x y, In x l -> In y l -> after x y = JSArray.after comparefn' x y) ->
  sort l = JSArray.sort comparefn' l.
Proof.
  induction l as [|x l IH]; intros H; cbn; [reflexivity|].
  rewrite <- IH by (intros; apply H; now right).
  apply insert_ext. intros y Hy. apply H; [now left|].
  right. now apply sort_In.
Qed.

(** Stability: elements none of which has to come after another keep
    their order. *)
Lemma filter_insert (p : A -> bool) x l :
  (forall y, In y l -> p x = true -> p y = true -> after x y = false) ->
  filter p (insert x l) = if p x then x :: filter p l else filter p l.
Proof.
  induction l as [|y l IH]; intros H; cbn [JSArray.insert]; [reflexivity|].
  destruct (after x y) eqn:Hxy; [|reflexivity].
  cbn [filter]. rewrite IH by (intros; apply H; auto; now right).
  destruct (p x) eqn:Hx, (p y) eqn:Hy; try reflexivity.
  rewrite H in Hxy; auto; [discriminate|now left].
Qed.

Lemma sort_stable (p : A -> bool) l :
  (forall x y, In x l -> In y l -> p x = true -> p y = true -> after x y = false) ->
  filter p (sort l) = filter p l.
Proof.
  induction l as [|x l IH]; intros H; cbn [JSArray.sort]; [reflexivity|].
  rewrite filter_insert.
  - cbn [filter]. rewrite IH by (intros; apply H; auto; now right). reflexivity.
  - intros y Hy. apply H; [now left|right; now apply sort_In].
Qed.

(** Sortedness, for a comparator that orders the elements consistently. *)
Section Consistent.

Hypothesis after_asym : forall x y, after x y = true -> after y x = false.
Hypothesis after_trans :
  forall x y z, after x y = false -> after y z = false -> after x z = false.

Lemma insert_sorted x l :
  StronglySorted (fun a b => after a b = false) l ->
  StronglySorted (fun a b => after a b = false) (insert x l).
Proof.
  induction 1 as [|y l Hs IH Hy]; cbn.
  - repeat constructor.
  - destruct (after x y) eqn:Hxy.
    + constructor; [assumption|].
      apply (Permutation_Forall (insert_perm x l)).
      constructor; [now apply after_asym|assumption].
    + constructor; [now constructor|].
      constructor; [assumption|].
      eapply Forall_impl; [|exact Hy]. intros z Hz. now apply after_trans with y.
Qed.

Lemma sort_sorted l : StronglySorted (fun a b => after a b = false) (sort l).
Proof.
  induction l as [|x l IH]; cbn; [constructor|now apply insert_sorted].
Qed.

End Consistent.

End SortFacts.

Lemma mapThrowing_total {A B : Type} (f : A -> option B) (g : A -> B) l :
  (forall x, In x l -> f x = Some (g x)) ->
  JSArray.mapThrowing f l = Some (map g l).
Proof.
  induction l as [|x l IH]; intros H; cbn; [reflexivity|].
  rewrite (H x) by now left. rewrite IH by (intros; apply H; now right).
  reflexivity.
Qed.

(* ================================================================== *)
(** * Proofs: JSON                                                     *)
(* ================================================================== *)

Section JSONFacts.

Import JSString JSON.
Local Open Scope string_scope.

Lemma append_assoc (a b c : string) : (a ++ b) ++ c = a ++ (b ++ c).
Proof. induction a as [|x a IH]; cbn; [reflexivity|now rewrite IH]. Qed.

Lemma append_length (a b : string) :
  String.length (a ++ b) = (String.length a + String.length b)%nat.
Proof. induction a as [|x a IH]; cbn; [reflexivity|now rewrite IH]. Qed.

Lemma append_empty_r (a : string) : a ++ EmptyString = a.
Proof. induction a as [|x a IH]; cbn; [reflexivity|now rewrite IH]. Qed.

(** ** String literals *)

Lemma parseBody_quoteChar c r :
  parseBody (quoteChar c ++ r) = consChar c (parseBody r).
Proof.
  destruct c as [[] [] [] [] [] [] [] []]; reflexivity.
Qed.

Lemma parseBody_quoteBody s rest :
  parseBody (quoteBody s ++ String quote rest) = Some (s, rest).
Proof.
  induction s as [|c s IH]; [reflexivity|].
  cbn [quoteBody]. rewrite append_assoc, parseBody_quoteChar, IH. reflexivity.
Qed.

Lemma parseString_quoteString s rest :
  parseString (quoteString s ++ rest) = Some (s, rest).
Proof.
  unfold quoteString, parseString. cbn [append expect].
  change (quote =? quote)%char with true. cbv iota.
  rewrite append_assoc. apply parseBody_quoteBody.
Qed.

(** ** Numbers *)

Lemma digitVal_digitChar d : 0 <= d <= 9 -> digitVal (digitChar d) = Some d.
Proof.
  intros H.
  assert (Hd : d = 0 \/ d = 1 \/ d = 2 \/ d = 3 \/ d = 4 \/ d = 5 \/ d = 6 \/
               d = 7 \/ d = 8 \/ d = 9) by lia.
  repeat destruct Hd as [->|Hd]; try subst d; reflexivity.
Qed.

Lemma mod10_digit z : 0 <= z mod 10 <= 9.
Proof. pose proof (Z.mod_pos_bound z 10). lia. Qed.

Lemma isDigit_digitChar d : 0 <= d <= 9 -> isDigit (digitChar d) = true.
Proof. intros H. unfold isDigit. now rewrite digitVal_digitChar. Qed.

Lemma list_ascii_app a b :
  list_ascii_of_string (a ++ b) = (list_ascii_of_string a ++ list_ascii_of_string b)%list.
Proof. induction a as [|x a IH]; cbn; [reflexivity|now rewrite IH]. Qed.

Lemma endsNumber_head rest :
  endsNumber rest ->
  exists c r, rest = String c r /\ isDigit c = false /\
              startsWithChar "." rest = false /\ startsWithChar "e" rest = false /\
              startsWithChar "E" rest = false.
Proof.
  intros [H|H]; destruct rest as [|c r]; try discriminate; cbn in H;
    apply Ascii.eqb_eq in H; subst c; eexists; exists r; repeat split; reflexivity.
Qed.

Lemma spanDigits_app ds : forall rest,
  Forall (fun c => isDigit c = true) (list_ascii_of_string ds) ->
  (exists c r, rest = String c r /\ isDigit c = false) ->
  spanDigits (ds ++ rest) = (list_ascii_of_string ds, rest).
Proof.
  induction ds as [|x ds IH]; intros rest Hd (c & r & -> & Hc); cbn.
  - now rewrite Hc.
  - inversion Hd; subst. rewrite H1, IH; eauto.
Qed.

Lemma digitsOf_digits fuel : forall z,
  0 <= z -> Forall (fun c => isDigit c = true) (list_ascii_of_string (digitsOf fuel z)).
Proof.
  induction fuel as [|f IH]; intros z Hz; cbn [digitsOf].
  - repeat constructor. apply isDigit_digitChar. apply mod10_digit.
  - destruct (Z.ltb_spec z 10).
    + repeat constructor. apply isDigit_digitChar. lia.
    + rewrite list_ascii_app. apply Forall_app. split.
      * apply IH. apply Z.div_pos; lia.
      * repeat constructor. apply isDigit_digitChar. apply mod10_digit.
Qed.

Lemma digitsOf_value fuel : forall z,
  0 <= z < 10 ^ (Z.of_nat fuel + 1) ->
  digitsVal 0 (list_ascii_of_string (digitsOf fuel z)) = Some z.
Proof.
  induction fuel as [|f IH]; intros z Hz; cbn [digitsOf].
  - assert (Hs : z mod 10 = z) by (apply Z.mod_small; cbn in Hz; lia).
    rewrite Hs. cbn [list_ascii_of_string digitsVal].
    rewrite digitVal_digitChar by (cbn in Hz; lia). f_equal; lia.
  - destruct (Z.ltb_spec z 10).
    + cbn [list_ascii_of_string digitsVal].
      rewrite digitVal_digitChar by lia. f_equal; lia.
    + rewrite list_ascii_app. cbn [list_ascii_of_string].
      rewrite digitsVal_snoc, IH, digitVal_digitChar.
      * f_equal. pose proof (Z.div_mod z 10). lia.
      * apply mod10_digit.
      * rewrite Nat2Z.inj_succ in Hz.
        replace (Z.succ (Z.of_nat f) + 1) with (Z.succ (Z.of_nat f + 1)) in Hz by lia.
        rewrite Z.pow_succ_r in Hz by lia.
        split; [apply Z.div_pos; lia|].
        apply Z.div_lt_upper_bound; lia.
Qed.

(** No leading zero. *)
Lemma digitsOf_head fuel : forall z,
  0 < z -> exists c r, digitsOf fuel z = String c r /\
                       (z < 10 ^ (Z.of_nat fuel + 1) -> c <> "0"%char).
Proof.
  induction fuel as [|f IH]; intros z Hz; cbn [digitsOf].
  - eexists _, _. split; [reflexivity|].
    cbn. intros Hlt. rewrite Z.mod_small by lia.
    assert (Hd : z = 1 \/ z = 2 \/ z = 3 \/ z = 4 \/ z = 5 \/ z = 6 \/
                 z = 7 \/ z = 8 \/ z = 9) by lia.
    repeat destruct Hd as [->|Hd]; try subst z; discriminate.
  - destruct (Z.ltb_spec z 10).
    + eexists _, _. split; [reflexivity|]. intros _.
      assert (Hd : z = 1 \/ z = 2 \/ z = 3 \/ z = 4 \/ z = 5 \/ z = 6 \/
                   z = 7 \/ z = 8 \/ z = 9) by lia.
      repeat destruct Hd as [->|Hd]; try subst z; discriminate.
    + destruct (IH (z / 10)) as (c & r & Hc & Hnz).
      { apply Z.div_str_pos. lia. }
      rewrite Hc. cbn [append]. eexists _, _. split; [reflexivity|].
      intros Hlt. apply Hnz.
      rewrite Nat2Z.inj_succ in Hlt.
      replace (Z.succ (Z.of_nat f) + 1) with (Z.succ (Z.of_nat f + 1)) in Hlt by lia.
      rewrite Z.pow_succ_r in Hlt by lia.
      apply Z.div_lt_upper_bound; lia.
Qed.

Lemma log2_fuel z : 0 <= z -> z < 10 ^ (Z.of_nat (Z.to_nat (Z.log2 z)) + 1).
Proof.
  intros Hz. rewrite Z2Nat.id by apply Z.log2_nonneg.
  destruct (Z.eq_dec z 0) as [->|Hnz]; [reflexivity|].
  pose proof (Z.log2_spec z ltac:(lia)) as [_ Hhi].
  pose proof (Z.log2_nonneg z).
  eapply Z.lt_le_trans; [exact Hhi|].
  replace (Z.succ (Z.log2 z)) with (Z.log2 z + 1) by lia.
  apply Z.pow_le_mono_l. lia.
Qed.

Lemma isDigit_head c :
  isDigit c = true ->
  isWS c = false /\ (c =? quote)%char = false /\ (c =? "-")%char = false.
Proof.
  destruct c as [[] [] [] [] [] [] [] []]; cbn; intros H;
    try discriminate H; repeat split.
Qed.

(** The first code unit of a printed number: a digit or the sign. *)
Lemma numberToString_head z :
  exists c r, numberToString z = String c r /\
              isWS c = false /\ (c =? quote)%char = false.
Proof.
  unfold numberToString. destruct (Z.ltb_spec z 0).
  - eexists _, _. repeat split.
  - pose proof (digitsOf_digits (Z.to_nat (Z.log2 z)) z ltac:(lia)) as Hd.
    destruct (digitsOf (Z.to_nat (Z.log2 z)) z) as [|c r] eqn:E.
    + destruct (Z.to_nat (Z.log2 z)); cbn in E; [discriminate|].
      destruct (z <? 10)%Z; [discriminate|].
      destruct (digitsOf n (z / 10)); discriminate.
    + cbn in Hd. inversion Hd; subst.
      destruct (isDigit_head c) as (Hw & Hq & _); [assumption|].
      exists c, r. auto.
Qed.

Lemma parseNumber_numberToString z rest :
  endsNumber rest ->
  parseNumber (numberToString z ++ rest) = Some (z, rest).
Proof.
  intros He.
  destruct (endsNumber_head rest He) as (c0 & r0 & Hr & Hnd & Hdot & He1 & He2).
  assert (Hsp : forall f y, 0 <= y ->
            spanDigits (digitsOf f y ++ rest)
            = (list_ascii_of_string (digitsOf f y), rest)).
  { intros f y Hy. apply spanDigits_app; [now apply digitsOf_digits|].
    exists c0, r0. auto. }
  unfold numberToString. destruct (Z.ltb_spec z 0) as [Hneg|Hpos].
  - unfold parseNumber. cbn [append startsWithChar].
    change ("-" =? "-")%char with true. cbv iota.
    rewrite Hsp by lia.
    destruct (digitsOf_head (Z.to_nat (Z.log2 (- z))) (- z) ltac:(lia))
      as (c & r & Hc & Hnz).
    pose proof (digitsOf_value (Z.to_nat (Z.log2 (- z))) (- z)
                  ltac:(split; [lia|apply log2_fuel; lia])) as Hv.
    rewrite Hc in *. cbn [list_ascii_of_string] in *.
    apply Ascii.eqb_neq in Hnz; [|apply log2_fuel; lia].
    rewrite Hnz, Hdot, He1, He2, Hv. cbn. f_equal. f_equal. lia.
  - pose proof (digitsOf_digits (Z.to_nat (Z.log2 z)) z Hpos) as Hd.
    pose proof (digitsOf_value (Z.to_nat (Z.log2 z)) z
                  ltac:(split; [lia|apply log2_fuel; lia])) as Hv.
    specialize (Hsp (Z.to_nat (Z.log2 z)) z Hpos).
    destruct (Z.eq_dec z 0) as [->|Hnz0].
    { change (digitsOf (Z.to_nat (Z.log2 0)) 0) with "0" in *.
      unfold parseNumber. cbn [append startsWithChar] in *.
      change ("0" =? "-")%char with false. cbv iota.
      rewrite Hsp. cbn [list_ascii_of_string].
      change (("0" =? "0")%char && negb true) with false. cbv iota.
      rewrite Hdot, He1, He2. reflexivity. }
    destruct (digitsOf_head (Z.to_nat (Z.log2 z)) z ltac:(lia))
      as (c & r & Hc & Hnz).
    apply Ascii.eqb_neq in Hnz; [|apply log2_fuel; lia].
    rewrite Hc in *. cbn [list_ascii_of_string] in *.
    inversion Hd; subst.
    destruct (isDigit_head c) as (_ & _ & Hm); [assumption|].
    unfold parseNumber. cbn [append startsWithChar]. rewrite Hm.
    cbn [append] in Hsp. rewrite Hsp.
    rewrite Hnz, Hdot, He1, He2, Hv. reflexivity.
Qed.

Lemma parseValue_printValue v rest :
  endsNumber rest ->
  parseValue (printValue v ++ rest) = Some (v, rest).
Proof.
  intros He. destruct v as [n|s]; cbn [printValue].
  - unfold parseValue.
    destruct (numberToString_head n) as (c & r & Hc & _ & Hq).
    pose proof (parseNumber_numberToString n rest He) as Hp.
    rewrite Hc in *. cbn [append startsWithChar]. rewrite Hq.
    cbn [append] in Hp. now rewrite Hp.
  - unfold parseValue. rewrite parseString_quoteString.
    unfold quoteString. cbn [append startsWithChar].
    change (quote =? quote)%char with true. reflexivity.
Qed.

Lemma skipWS_printValue v rest :
  skipWS (printValue v ++ rest) = printValue v ++ rest.
Proof.
  destruct v as [n|s]; cbn [printValue].
  - destruct (numberToString_head n) as (c & r & -> & Hw & _).
    cbn [append skipWS]. now rewrite Hw.
  - reflexivity.
Qed.

(** ** Objects and arrays *)

Lemma commaSep_cons x y l :
  commaSep (x :: y :: l) = x ++ "," ++ commaSep (y :: l).
Proof. reflexivity. Qed.

Lemma commaSep_length l :
  Forall (fun x => (1 <= String.length x)%nat) l ->
  (List.length l <= String.length (commaSep l))%nat.
Proof.
  induction 1 as [|x l Hx Hl IH]; [cbn; lia|].
  destruct l as [|y l]; [cbn; lia|].
  rewrite commaSep_cons, !append_length. cbn [List.length] in *. lia.
Qed.

Lemma printMember_head m :
  exists r, printMember m = String quote r.
Proof. destruct m as [k v]. eexists. reflexivity. Qed.

Lemma printMembers_head o r :
  o <> [] -> exists r', commaSep (map printMember o) ++ r = String quote r'.
Proof.
  destruct o as [|m o]; [congruence|]. intros _.
  destruct (printMember_head m) as (r0 & Hm).
  destruct o as [|m' o]; cbn [map].
  - cbn [commaSep]. rewrite Hm. eexists. reflexivity.
  - rewrite commaSep_cons, Hm. eexists. reflexivity.
Qed.

Lemma parseMember_step k v rest :
  endsNumber rest ->
  exists s,
    printMember (k, v) ++ rest = s /\
    parseString s = Some (k, ":" ++ printValue v ++ rest) /\
    parseValue (skipWS (printValue v ++ rest)) = Some (v, rest).
Proof.
  intros He. eexists. split; [reflexivity|]. split.
  - unfold printMember. cbn [fst snd]. rewrite !append_assoc.
    apply parseString_quoteString.
  - rewrite skipWS_printValue. now apply parseValue_printValue.
Qed.

Lemma expect_same c r : expect c (String c r) = Some r.
Proof. unfold expect. now rewrite Ascii.eqb_refl. Qed.

Lemma parseMembers_print o : forall fuel rest,
  o <> [] -> (List.length o <= fuel)%nat ->
  parseMembers fuel (commaSep (map printMember o) ++ String "}" rest)
  = Some (o, rest).
Proof.
  induction o as [|[k v] o IH]; intros fuel rest Hne Hf; [congruence|].
  destruct fuel as [|f]; [cbn in Hf; lia|].
  destruct o as [|m o].
  - cbn [map commaSep parseMembers].
    destruct (parseMember_step k v (String "}" rest)) as (s & <- & Hk & Hv);
      [right; reflexivity|].
    rewrite Hk. cbn [append].
    change (skipWS (String ":" ?x)) with (String ":" x).
    rewrite expect_same, Hv.
    change (skipWS (String "}" rest)) with (String "}" rest).
    rewrite expect_same. reflexivity.
  - cbn [map]. rewrite commaSep_cons. cbn [parseMembers].
    rewrite !append_assoc.
    destruct (parseMember_step k v
                ("," ++ commaSep (printMember m :: map printMember o) ++ String "}" rest))
      as (s & <- & Hk & Hv); [left; reflexivity|].
    rewrite Hk. cbn [append] in *.
    change (skipWS (String ":" ?x)) with (String ":" x).
    rewrite expect_same, Hv.
    change (skipWS (String "," ?x)) with (String "," x).
    change (startsWithChar "}" (String "," ?x)) with false. cbv iota.
    rewrite expect_same.
    destruct (printMembers_head (m :: o) (String "}" rest)) as (r' & Hh);
      [discriminate|].
    cbn [map] in Hh. rewrite Hh.
    change (skipWS (String quote r')) with (String quote r').
    rewrite <- Hh.
    change (printMember m :: map printMember o) with (map printMember (m :: o)).
    rewrite IH; [reflexivity|discriminate|cbn [List.length] in *; lia].
Qed.

Lemma parseObject_printObject o rest :
  parseObject (printObject o ++ rest) = Some (o, rest).
Proof.
  unfold printObject, parseObject. cbn [append].
  rewrite expect_same, append_assoc. cbn [append].
  destruct o as [|m o].
  - cbn [map commaSep append].
    change (skipWS (String "}" rest)) with (String "}" rest).
    cbv zeta. change (startsWithChar "}" (String "}" rest)) with true. cbv iota.
    now rewrite expect_same.
  - destruct (printMembers_head (m :: o) (String "}" rest)) as (r' & Hh);
      [discriminate|].
    rewrite Hh.
    change (skipWS (String quote r')) with (String quote r').
    cbv zeta. change (startsWithChar "}" (String quote r')) with false. cbv iota.
    rewrite <- Hh. apply parseMembers_print; [discriminate|].
    rewrite append_length.
    pose proof (commaSep_length (map printMember (m :: o))) as Hl.
    rewrite length_map in Hl.
    assert (Hall : Forall (fun x => (1 <= String.length x)%nat)
                     (map printMember (m :: o))).
    { apply Forall_forall. intros x Hx. apply in_map_iff in Hx as (y & <- & _).
      destruct (printMember_head y) as (r & ->). cbn. lia. }
    specialize (Hl Hall). lia.
Qed.

Lemma printObject_head o : exists r, printObject o = String "{" r.
Proof. eexists. reflexivity. Qed.

Lemma parseElements_print a : forall fuel rest,
  a <> [] -> (List.length a <= fuel)%nat ->
  parseElements fuel (commaSep (map printObject a) ++ String "]" rest)
  = Some (a, rest).
Proof.
  induction a as [|o a IH]; intros fuel rest Hne Hf; [congruence|].
  destruct fuel as [|f]; [cbn in Hf; lia|].
  destruct a as [|o' a].
  - cbn [map commaSep parseElements].
    rewrite parseObject_printObject.
    change (skipWS (String "]" rest)) with (String "]" rest).
    cbv zeta. change (startsWithChar "]" (String "]" rest)) with true. cbv iota.
    now rewrite expect_same.
  - cbn [map]. rewrite commaSep_cons. cbn [parseElements].
    rewrite !append_assoc, parseObject_printObject. cbn [append].
    change (skipWS (String "," ?x)) with (String "," x).
    cbv zeta. change (startsWithChar "]" (String "," ?x)) with false. cbv iota.
    rewrite expect_same.
    change (printObject o' :: map printObject a) with (map printObject (o' :: a)).
    assert (Hh : exists r', commaSep (map printObject (o' :: a)) ++ String "]" rest
                            = String "{" r').
    { destruct a; cbn [map]; [cbn [commaSep]|rewrite commaSep_cons];
        eexists; reflexivity. }
    destruct Hh as (r' & Hh). rewrite Hh.
    change (skipWS (String "{" r')) with (String "{" r'). rewrite <- Hh.
    rewrite IH; [reflexivity|discriminate|cbn [List.length] in *; lia].
Qed.

Lemma parseArray_printArray a rest :
  parseArray (printArray a ++ rest) = Some (a, rest).
Proof.
  unfold printArray, parseArray. cbn [append].
  rewrite expect_same, append_assoc. cbn [append].
  destruct a as [|o a].
  - cbn [map commaSep append].
    change (skipWS (String "]" rest)) with (String "]" rest).
    cbv zeta. change (startsWithChar "]" (String "]" rest)) with true. cbv iota.
    now rewrite expect_same.
  - assert (Hh : exists r', commaSep (map printObject (o :: a)) ++ String "]" rest
                            = String "{" r').
    { destruct a; cbn [map]; [cbn [commaSep]|rewrite commaSep_cons];
        eexists; reflexivity. }
    destruct Hh as (r' & Hh). rewrite Hh.
    change (skipWS (String "{" r')) with (String "{" r').
    cbv zeta. change (startsWithChar "]" (String "{" r')) with false. cbv iota.
    rewrite <- Hh. apply parseElements_print; [discriminate|].
    rewrite append_length.
    pose proof (commaSep_length (map printObject (o :: a))) as Hl.
    rewrite length_map in Hl.
    assert (Hall : Forall (fun x => (1 <= String.length x)%nat)
                     (map printObject (o :: a))).
    { apply Forall_forall. intros x Hx. apply in_map_iff in Hx as (y & <- & _).
      cbn. lia. }
    specialize (Hl Hall). lia.
Qed.

(** ** Cases *)

Lemma toCase_ofCase c : toCase (ofCase c) = Some c.
Proof. destruct c. reflexivity. Qed.

Lemma toCases_ofCase cs : toCases (map ofCase cs) = Some cs.
Proof.
  induction cs as [|c cs IH]; [reflexivity|].
  cbn [map toCases]. now rewrite toCase_ofCase, IH.
Qed.

(** What [JSON.stringify] writes for an array of cases, [JSON.parse] reads
    back as the same cases in the same order. *)
Lemma parse_stringify cs : JSON.parse (stringify cs) = Some cs.
Proof.
  unfold JSON.parse, stringify.
  change (skipWS (printArray (map ofCase cs))) with (printArray (map ofCase cs)).
  rewrite <- (append_empty_r (printArray (map ofCase cs))).
  rewrite parseArray_printArray. cbn [skipWS]. apply toCases_ofCase.
Qed.

Lemma stringify_truthy cs : truthy (stringify cs) = true.
Proof. reflexivity. Qed.

End JSONFacts.

(* ================================================================== *)
(** * Proofs: the case store                                           *)
(* ================================================================== *)

Section StoreFacts.

Lemma filter_Subseq {A : Type} (p : A -> bool) l : Subseq (filter p l) l.
Proof.
  induction l as [|x l IH]; cbn; [constructor|].
  destruct (p x); now constructor.
Qed.

Lemma Subseq_In {A : Type} (l' l : list A) x : Subseq l' l -> In x l' -> In x l.
Proof.
  induction 1 as [|y l' l H IH|y l' l H IH]; cbn; intuition.
Qed.

Lemma filter_split_perm {A : Type} (p : A -> bool) l :
  Permutation l (filter (fun x => negb (p x)) l ++ filter p l).
Proof.
  induction l as [|x l IH]; cbn; [constructor|].
  destruct (p x); cbn.
  - apply Permutation_cons_app. exact IH.
  - now apply perm_skip.
Qed.

Lemma advance_other LocalTZA caseId c :
  Case.id c <> caseId -> advance LocalTZA caseId c = Some c.
Proof.
  intros H. unfold advance.
  destruct (Z.eqb_spec (Case.id c) caseId); [contradiction|reflexivity].
Qed.

Lemma advance_match LocalTZA caseId c d :
  Case.id c = caseId ->
  nextHearingDate LocalTZA (Case.hearingDate c) = Some d ->
  advance LocalTZA caseId c = Some (rescheduled c d "Adjourned").
Proof.
  intros H Hd. unfold advance. rewrite Hd.
  destruct (Z.eqb_spec (Case.id c) caseId); [reflexivity|contradiction].
Qed.

(** When the cases with the given id carry calendar dates, the updater
    throws on none of them. *)
Lemma moveToNextHearing_cases LocalTZA caseId st :
  - JSDate.msPerDay < LocalTZA < JSDate.msPerDay ->
  (forall c, In c (cases st) -> Case.id c = caseId ->
             isCalendarDate (Case.hearingDate c) = true) ->
  exists st', moveToNextHearing LocalTZA caseId st = Some st' /\
              cases st' = map (advanced LocalTZA caseId) (cases st).
Proof.
  intros Hz Hd. unfold moveToNextHearing.
  rewrite (mapThrowing_total _ (advanced LocalTZA caseId)).
  - eexists. split; reflexivity.
  - intros c Hc. unfold advanced.
    destruct (Z.eq_dec (Case.id c) caseId) as [He|Hne].
    + destruct (nextHearingDate_total LocalTZA (Case.hearingDate c) Hz (Hd c Hc He))
        as (d & Hn).
      now rewrite (advance_match _ _ _ d He Hn).
    + now rewrite advance_other.
Qed.

End StoreFacts.

(* ================================================================== *)
(** * The properties of the specification                              *)
(* ================================================================== *)

Local Open Scope string_scope.

(** C4.  When one of the four required fields of the form is empty,
    [handleSubmit] reports the validation failure and changes nothing
    else: the state is the old one with the message added, so the
    collection has the length and the elements it had. *)
Theorem createCase_rejects_missing_field idNow createdNow st :
  Form.caseNumber (formData st) = EmptyString \/
  Form.courtName (formData st) = EmptyString \/
  Form.clientName (formData st) = EmptyString \/
  Form.hearingDate (formData st) = EmptyString ->
  handleSubmit idNow createdNow st =
    alert "Please fill in all required fields (Case Number, Court Name, Client Name, Hearing Date)" st /\
  cases (handleSubmit idNow createdNow st) = cases st /\
  List.length (cases (handleSubmit idNow createdNow st)) = List.length (cases st) /\
  localStorage (handleSubmit idNow createdNow st) = localStorage st.
Proof.
  intros H.
  assert (E : handleSubmit idNow createdNow st =
    alert "Please fill in all required fields (Case Number, Court Name, Client Name, Hearing Date)" st).
  { unfold handleSubmit.
    destruct H as [H|[H|[H|H]]]; rewrite H; cbn [JSString.truthy negb orb];
      rewrite ?orb_true_r; reflexivity. }
  rewrite E. repeat split.
Qed.

Lemma createCase_rejects_missing_field_witness :
  Form.caseNumber (formData (initialState (Storage.mk None 0))) = EmptyString /\
  cases (handleSubmit 1700000000000 1700000000000
           (initialState (Storage.mk None 0))) = [].
Proof.
  split; [reflexivity|].
  apply (createCase_rejects_missing_field 1700000000000 1700000000000
           (initialState (Storage.mk None 0))).
  left. reflexivity.
Defined.

Lemma handleSubmit_valid idNow createdNow st :
  requiredFilled (formData st) ->
  cases (handleSubmit idNow createdNow st) =
  (cases st ++
  [Case.mk idNow (Form.caseNumber (formData st)) (Form.courtName (formData st))
           (Form.caseType (formData st)) (Form.clientName (formData st))
           (Form.opponentName (formData st)) (Form.hearingDate (formData st))
           (Form.caseStatus (formData st)) (Form.notes (formData st))
           (DateObj.isoString createdNow)])%list.
Proof.
  intros (H1 & H2 & H3 & H4). unfold handleSubmit.
  apply truthy_true in H1, H2, H3, H4. rewrite H1, H2, H3, H4. reflexivity.
Qed.

(** C2, the code at a failing input.  The collection holds a case whose
    id is the reading 1700000000000 of the millisecond clock, the form is
    filled in, and [Date.now()] returns that reading again (a second
    submission within the millisecond, or a clock set back): the new case
    is appended with the id the other case has.  The id is taken from the
    clock without a look at the collection. *)
Theorem createCase_id_collides :
  requiredFilled
    (formData (sampleState 0 [sampleCase 1700000000000 "2024-01-31"])) /\
  exists c',
    cases (handleSubmit 1700000000000 1700000000000
             (sampleState 0 [sampleCase 1700000000000 "2024-01-31"]))
    = [sampleCase 1700000000000 "2024-01-31"; c'] /\
    Case.id c' = Case.id (sampleCase 1700000000000 "2024-01-31").
Proof.
  split; [repeat split; discriminate|].
  eexists. split; [vm_compute; reflexivity|reflexivity].
Qed.

(** C8.  [moveToNextHearing] with an id that no case carries does not
    throw and leaves the collection as it is: the same cases, in the same
    order. *)
Theorem advanceHearing_unknown_id LocalTZA caseId st :
  ~ In caseId (map Case.id (cases st)) ->
  exists st', moveToNextHearing LocalTZA caseId st = Some st' /\
              cases st' = cases st /\
              List.length (cases st') = List.length (cases st).
Proof.
  intros Hn. unfold moveToNextHearing.
  rewrite (mapThrowing_total _ (fun c => c)).
  - rewrite map_id. eexists. repeat split.
  - intros c Hc. apply advance_other. intros He. apply Hn.
    rewrite <- He. now apply in_map.
Qed.

Lemma advanceHearing_unknown_id_witness :
  exists st',
    moveToNextHearing 19800000 7
      (sampleState 0 [sampleCase 1 "2024-01-31"; sampleCase 2 "not a date"])
    = Some st' /\
    cases st' = [sampleCase 1 "2024-01-31"; sampleCase 2 "not a date"].
Proof.
  destruct (advanceHearing_unknown_id 19800000 7
              (sampleState 0 [sampleCase 1 "2024-01-31"; sampleCase 2 "not a date"]))
    as (st' & H1 & H2 & _).
  - cbn. intros [H|[H|[]]]; discriminate H.
  - exists st'. split; assumption.
Defined.

(** C9.  A confirmed [deleteCase] keeps the cases with another id, each as
    it was and in the order they had, and removes those with the given id
    and nothing else. *)
Theorem deleteCase_removes_exactly caseId st :
  let remaining := cases (deleteCase true caseId st) in
  Subseq remaining (cases st) /\
  (forall c, In c remaining <-> In c (cases st) /\ Case.id c <> caseId) /\
  exists removed,
    Forall (fun c => Case.id c = caseId) removed /\
    Permutation (cases st) (removed ++ remaining)%list.
Proof.
  cbn. split; [apply filter_Subseq|]. split.
  - intros c. rewrite filter_In, negb_true_iff, Z.eqb_neq. reflexivity.
  - exists (filter (fun c => Case.id c =? caseId)%Z (cases st)). split.
    + apply Forall_forall. intros c Hc. apply filter_In in Hc as [_ Hc].
      now apply Z.eqb_eq.
    + rewrite (filter_split_perm (fun c => negb (Case.id c =? caseId)%Z) (cases st))
        at 1.
      apply Permutation_app_tail.
      erewrite filter_ext; [reflexivity|]. intros c. cbn. apply negb_involutive.
Qed.

Lemma advanced_other LocalTZA caseId c :
  Case.id c <> caseId -> advanced LocalTZA caseId c = c.
Proof. intros H. unfold advanced. now rewrite advance_other. Qed.

Lemma advanced_match LocalTZA caseId c :
  Case.id c = caseId ->
  exists d s, advanced LocalTZA caseId c = rescheduled c d s.
Proof.
  intros H. unfold advanced, advance.
  destruct (Case.id c =? caseId)%Z.
  - destruct (nextHearingDate LocalTZA (Case.hearingDate c)) as [d|].
    + now exists d, "Adjourned".
    + exists (Case.hearingDate c), (Case.caseStatus c). now destruct c.
  - exists (Case.hearingDate c), (Case.caseStatus c). now destruct c.
Qed.

(** C10.  [moveToNextHearing], on a collection whose cases with the given
    id carry calendar dates, returns a collection of the same length in
    which every case with another id is unchanged in its place, and a case
    with the id differs at most in the hearing date and the status. *)
Theorem advanceHearing_frame LocalTZA caseId st :
  - JSDate.msPerDay < LocalTZA < JSDate.msPerDay ->
  (forall c, In c (cases st) -> Case.id c = caseId ->
             isCalendarDate (Case.hearingDate c) = true) ->
  exists st',
    moveToNextHearing LocalTZA caseId st = Some st' /\
    List.length (cases st') = List.length (cases st) /\
    forall i c, nth_error (cases st) i = Some c ->
      exists c', nth_error (cases st') i = Some c' /\
        (Case.id c <> caseId -> c' = c) /\
        Case.id c' = Case.id c /\
        Case.caseNumber c' = Case.caseNumber c /\
        Case.courtName c' = Case.courtName c /\
        Case.caseType c' = Case.caseType c /\
        Case.clientName c' = Case.clientName c /\
        Case.opponentName c' = Case.opponentName c /\
        Case.notes c' = Case.notes c /\
        Case.createdAt c' = Case.createdAt c.
Proof.
  intros Hz Hd.
  destruct (moveToNextHearing_cases LocalTZA caseId st Hz Hd) as (st' & Hm & Hc).
  exists st'. split; [assumption|]. rewrite Hc. split; [apply length_map|].
  intros i c Hi. exists (advanced LocalTZA caseId c).
  split; [rewrite nth_error_map, Hi; reflexivity|].
  split; [apply advanced_other|].
  destruct (Z.eq_dec (Case.id c) caseId) as [He|Hne].
  - destruct (advanced_match LocalTZA caseId c He) as (d & s & ->).
    repeat split.
  - rewrite advanced_other by assumption. repeat split.
Qed.

Lemma advanceHearing_frame_witness :
  exists st',
    moveToNextHearing 19800000 1
      (sampleState 0 [sampleCase 1 "2024-06-15"; sampleCase 2 "not a date"])
    = Some st' /\
    List.length (cases st') = 2%nat.
Proof.
  destruct (advanceHearing_frame 19800000 1
              (sampleState 0 [sampleCase 1 "2024-06-15"; sampleCase 2 "not a date"]))
    as (st' & H1 & H2 & _).
  - split; reflexivity.
  - intros c [<-|[<-|[]]] H; [reflexivity|discriminate H].
  - exists st'. split; assumption.
Defined.

(** C1.  A case dated 2024-01-31 is moved to 2024-03-02, one of the four
    dates the specification allows, whatever the offset of local time and
    whatever the collection; its status becomes Adjourned whatever it
    was. *)
Theorem advanceHearing_jan31 LocalTZA st i c :
  - JSDate.msPerDay < LocalTZA < JSDate.msPerDay ->
  (forall c', In c' (cases st) -> Case.id c' = Case.id c ->
              isCalendarDate (Case.hearingDate c') = true) ->
  nth_error (cases st) i = Some c ->
  Case.hearingDate c = "2024-01-31" ->
  exists st' c',
    moveToNextHearing LocalTZA (Case.id c) st = Some st' /\
    nth_error (cases st') i = Some c' /\
    Case.hearingDate c' = "2024-03-02" /\
    In (Case.hearingDate c') ["2024-02-28"; "2024-02-29"; "2024-03-02"; "2024-03-03"] /\
    Case.caseStatus c' = "Adjourned".
Proof.
  intros Hz Hd Hi Hdate.
  destruct (moveToNextHearing_cases LocalTZA (Case.id c) st Hz Hd) as (st' & Hm & Hc).
  exists st', (rescheduled c "2024-03-02" "Adjourned").
  split; [assumption|]. split.
  - rewrite Hc, nth_error_map, Hi. cbn [option_map]. f_equal.
    unfold advanced. erewrite advance_match; [reflexivity|reflexivity|].
    rewrite Hdate. now apply nextHearingDate_2024_01_31.
  - cbn [rescheduled Case.hearingDate Case.caseStatus].
    split; [reflexivity|]. split; [|reflexivity].
    right. right. left. reflexivity.
Qed.

Lemma advanceHearing_jan31_witness :
  exists st' c',
    moveToNextHearing (-18000000) 1
      (sampleState 0 [sampleCase 1 "2024-01-31"]) = Some st' /\
    nth_error (cases st') 0 = Some c' /\
    Case.hearingDate c' = "2024-03-02" /\ Case.caseStatus c' = "Adjourned".
Proof.
  destruct (advanceHearing_jan31 (-18000000)
              (sampleState 0 [sampleCase 1 "2024-01-31"]) 0
              (sampleCase 1 "2024-01-31"))
    as (st' & c' & H1 & H2 & H3 & _ & H4).
  - split; reflexivity.
  - intros c [<-|[]] _. reflexivity.
  - reflexivity.
  - reflexivity.
  - exists st', c'. repeat split; assumption.
Defined.




(** C7, as amended.  When the serialized cases fit into the storage,
    [saveCasesToStorage] followed by [loadCasesFromStorage] in a fresh
    session yields the cases that were saved, field for field and in
    order. *)
Theorem save_load_roundtrip st :
  (String.length (JSON.stringify (cases st)) <= Storage.room (localStorage st))%nat ->
  cases (reloaded (saveCasesToStorage st)) = cases st.
Proof.
  intros Hroom. unfold reloaded, saveCasesToStorage, Storage.setItem.
  apply Nat.leb_le in Hroom. rewrite Hroom.
  unfold loadCasesFromStorage. cbn [localStorage setLocalStorage initialState
    Storage.getItem Storage.courtCases].
  rewrite stringify_truthy, parse_stringify. reflexivity.
Qed.

Lemma save_load_roundtrip_witness :
  cases (reloaded (saveCasesToStorage
           (sampleState 1000 [sampleCase 1 "2024-01-31"; sampleCase 2 "2024-06-15"])))
  = [sampleCase 1 "2024-01-31"; sampleCase 2 "2024-06-15"].
Proof.
  apply (save_load_roundtrip
           (sampleState 1000 [sampleCase 1 "2024-01-31"; sampleCase 2 "2024-06-15"])).
  apply Nat.leb_le. vm_compute. reflexivity.
Defined.

(** C7, the claim as stated fails: with no room left in the storage the
    write throws, the exception is caught, and the next session loads
    nothing. *)
Lemma save_load_storage_full :
  cases (reloaded (saveCasesToStorage (sampleState 0 [sampleCase 1 "2024-01-31"])))
  <> cases (sampleState 0 [sampleCase 1 "2024-01-31"]).
Proof. vm_compute. discriminate. Qed.

(* ================================================================== *)
(** * Proofs: the views on hearing dates                               *)
(* ================================================================== *)

Section ViewFacts.

Import JSDate.

Variable LocalTZA : Z.
Hypothesis zone : - msPerDay < LocalTZA < msPerDay.

Variable now : Z.
Hypothesis clock : 0 <= now <= maxTime.

Lemma hearingDay_None s : hearingDay s = None <-> DateObj.parse s = None.
Proof. unfold hearingDay. destruct (DateObj.parse s); cbn; split; congruence. Qed.

Lemma Day_shift d :
  Day (d * msPerDay + LocalTZA) = d - dayShift LocalTZA.
Proof.
  unfold dayShift. destruct (Z.leb_spec 0 LocalTZA).
  - rewrite Day_east by lia. lia.
  - rewrite Day_west by lia. lia.
Qed.

(** A date string brought to local midnight: the midnight that begins the
    named day, or west of Greenwich the day before it. *)
Lemma midnightOf_val s d :
  hearingDay s = Some d ->
  midnightOf LocalTZA s =
  TimeClip ((d - dayShift LocalTZA) * msPerDay - LocalTZA) /\
  - maxTime <= d * msPerDay <= maxTime.
Proof.
  intros H. pose proof H as Hp. apply hearingDay_parse in Hp.
  destruct (parse_midnight _ _ Hp) as (d' & _ & Hb).
  split; [|assumption].
  unfold midnightOf. rewrite Hp.
  unfold DateObj.setHours, DateObj.LocalTime, DateObj.UTC, MakeDate, MakeTime.
  rewrite Day_shift. f_equal. lia.
Qed.

Lemma midnightOf_None s : hearingDay s = None -> midnightOf LocalTZA s = None.
Proof.
  intros H. apply hearingDay_None in H. unfold midnightOf. now rewrite H.
Qed.

Lemma today_bounds :
  - msPerDay < localDay LocalTZA now * msPerDay - LocalTZA <= maxTime.
Proof.
  unfold localDay, Day, maxTime, msPerDay in *.
  Z.to_euclidean_division_equations; lia.
Qed.

Lemma ceilDiv_days k : ceilDiv (k * msPerDay) msPerDay = k.
Proof.
  unfold ceilDiv. replace (- (k * msPerDay)) with ((- k) * msPerDay) by lia.
  unfold msPerDay. rewrite Z.div_mul by lia. lia.
Qed.

(** [isWithin7Days] in days, for the date strings this model reads: the
    day the string names, less the shift, lies zero to seven days after
    the local today. *)
Lemma isWithin7Days_days s :
  isWithin7Days LocalTZA now s =
  match hearingDay s with
  | Some d =>
      (0 <=? d - dayShift LocalTZA - localDay LocalTZA now)%Z &&
      (d - dayShift LocalTZA - localDay LocalTZA now <=? 7)%Z
  | None => false
  end.
Proof.
  unfold isWithin7Days. rewrite (todayMidnight_val LocalTZA now clock zone).
  pose proof today_bounds as Ht.
  destruct (hearingDay s) as [d|] eqn:Hd.
  - destruct (midnightOf_val s d Hd) as (-> & Hb).
    assert (Hs : 0 <= dayShift LocalTZA <= 1 /\
                 (dayShift LocalTZA = 0 -> 0 <= LocalTZA) /\
                 (dayShift LocalTZA = 1 -> LocalTZA < 0)).
    { unfold dayShift. destruct (Z.leb_spec 0 LocalTZA); lia. }
    set (sh := dayShift LocalTZA) in *. set (L := localDay LocalTZA now) in *.
    unfold TimeClip.
    destruct (Z.ltb_spec maxTime (Z.abs ((d - sh) * msPerDay - LocalTZA))) as [Ho|Hi].
    + cbn [DateObj.minus option_map]. symmetry. apply andb_false_iff. left.
      apply Z.leb_gt. unfold maxTime, msPerDay in *. lia.
    + cbn [DateObj.minus option_map].
      replace ((d - sh) * msPerDay - LocalTZA - (L * msPerDay - LocalTZA))
        with ((d - sh - L) * msPerDay) by lia.
      now rewrite ceilDiv_days.
  - now rewrite midnightOf_None.
Qed.

(** The test [getUpcomingHearings] makes on a case, in days. *)
Lemma upcoming_days s :
  DateObj.geq (midnightOf LocalTZA s) (todayMidnight LocalTZA now) = true <->
  exists d, hearingDay s = Some d /\
            localDay LocalTZA now <= d - dayShift LocalTZA.
Proof.
  rewrite (todayMidnight_val LocalTZA now clock zone).
  pose proof today_bounds as Ht.
  destruct (hearingDay s) as [d|] eqn:Hd.
  - destruct (midnightOf_val s d Hd) as (-> & Hb).
    assert (Hs : 0 <= dayShift LocalTZA <= 1 /\
                 (dayShift LocalTZA = 0 -> 0 <= LocalTZA) /\
                 (dayShift LocalTZA = 1 -> LocalTZA < 0)).
    { unfold dayShift. destruct (Z.leb_spec 0 LocalTZA); lia. }
    set (sh := dayShift LocalTZA) in *. set (L := localDay LocalTZA now) in *.
    unfold TimeClip.
    destruct (Z.ltb_spec maxTime (Z.abs ((d - sh) * msPerDay - LocalTZA))) as [Ho|Hi];
      cbn [DateObj.geq].
    + split; [discriminate|]. intros (d' & E & Hle). inversion E; subst d'.
      unfold maxTime, msPerDay in *. lia.
    + rewrite Z.leb_le. split.
      * intros H. exists d. split; [reflexivity|]. unfold msPerDay in *. lia.
      * intros (d' & E & Hle). inversion E; subst d'. unfold msPerDay in *. lia.
  - rewrite midnightOf_None by assumption. cbn. split; [discriminate|].
    intros (d & E & _). discriminate E.
Qed.

Lemma StronglySorted_In_impl {A : Type} (R R' : A -> A -> Prop) l :
  (forall a b, In a l -> In b l -> R a b -> R' a b) ->
  StronglySorted R l -> StronglySorted R' l.
Proof.
  intros H Hs. induction Hs as [|x l Hs IH Hx]; constructor.
  - apply IH. intros a b Ha Hb. apply H; now right.
  - apply Forall_forall. intros y Hy. apply H; [now left|now right|].
    now apply (proj1 (Forall_forall _ _) Hx).
Qed.

Lemma filter_filter_impl {A : Type} (p q : A -> bool) l :
  (forall x, In x l -> p x = true -> q x = true) ->
  filter p (filter q l) = filter p l.
Proof.
  induction l as [|x l IH]; intros H; cbn; [reflexivity|].
  rewrite <- IH by (intros; apply H; auto; now right).
  destruct (q x) eqn:Hq; cbn; [reflexivity|].
  destruct (p x) eqn:Hp; [|reflexivity].
  rewrite H in Hq; [discriminate|now left|assumption].
Qed.

Lemma byHearingDate_days a b da db :
  hearingDay (Case.hearingDate a) = Some da ->
  hearingDay (Case.hearingDate b) = Some db ->
  byHearingDate a b = Some ((da - db) * msPerDay).
Proof.
  intros Ha Hb. apply hearingDay_parse in Ha, Hb.
  unfold byHearingDate. rewrite Ha, Hb. cbn. f_equal. lia.
Qed.

(** The upcoming hearings, for the date strings this model reads: the
    cases dated on or after the local today (less the shift), in the order
    of their dates, those of one date in the order of the collection. *)
Lemma upcomingHearings_days st :
  (forall c, In c (getUpcomingHearings LocalTZA now st) <->
             In c (cases st) /\
             exists d, hearingDay (Case.hearingDate c) = Some d /\
                       localDay LocalTZA now <= d - dayShift LocalTZA) /\
  StronglySorted notLater (getUpcomingHearings LocalTZA now st) /\
  (forall d, localDay LocalTZA now <= d - dayShift LocalTZA ->
             filter (onDay d) (getUpcomingHearings LocalTZA now st)
             = filter (onDay d) (cases st)).
Proof.
  unfold getUpcomingHearings. cbv zeta.
  set (keep := fun caseItem : Case.t =>
         DateObj.geq (midnightOf LocalTZA (Case.hearingDate caseItem))
                     (todayMidnight LocalTZA now)).
  assert (Hkeep : forall c, In c (filter keep (cases st)) ->
            exists d, hearingDay (Case.hearingDate c) = Some d).
  { intros c Hc. apply filter_In in Hc as [_ Hc].
    apply upcoming_days in Hc as (d & Hd & _). now exists d. }
  split; [|split].
  - intros c. rewrite sort_In, filter_In. unfold keep.
    rewrite upcoming_days. reflexivity.
  - set (key := fun c : Case.t =>
           match hearingDay (Case.hearingDate c) with Some d => d | None => 0 end).
    rewrite (sort_ext _ (fun a b => Some (key a - key b))).
    + apply StronglySorted_In_impl
        with (R := fun a b => JSArray.after (fun a b => Some (key a - key b)) a b = false).
      * intros a b Ha Hb Hab. apply sort_In in Ha, Hb.
        destruct (Hkeep a Ha) as (da & Hda), (Hkeep b Hb) as (db & Hdb).
        exists da, db. split; [assumption|]. split; [assumption|].
        unfold JSArray.after, key in Hab. rewrite Hda, Hdb in Hab.
        apply Z.ltb_ge in Hab. lia.
      * apply sort_sorted; unfold JSArray.after; intros x y;
          [intros H; apply Z.ltb_lt in H; apply Z.ltb_ge; lia
          |intros z H1 H2; apply Z.ltb_ge in H1, H2; apply Z.ltb_ge; lia].
    + intros a b Ha Hb.
      destruct (Hkeep a Ha) as (da & Hda), (Hkeep b Hb) as (db & Hdb).
      unfold JSArray.after, key.
      rewrite (byHearingDate_days a b da db Hda Hdb), Hda, Hdb.
      unfold msPerDay.
      destruct (Z.ltb_spec 0 ((da - db) * 86400000)), (Z.ltb_spec 0 (da - db));
        try reflexivity; lia.
  - intros d Hd. rewrite sort_stable.
    + apply filter_filter_impl. intros c _ Hc. unfold keep.
      apply upcoming_days. exists d. split; [|assumption].
      unfold onDay in Hc. destruct (hearingDay (Case.hearingDate c)); [|discriminate].
      apply Z.eqb_eq in Hc. now subst.
    + intros x y _ _ Hx Hy. unfold onDay in Hx, Hy.
      destruct (hearingDay (Case.hearingDate x)) as [dx|] eqn:Ex; [|discriminate].
      destruct (hearingDay (Case.hearingDate y)) as [dy|] eqn:Ey; [|discriminate].
      apply Z.eqb_eq in Hx, Hy. subst.
      unfold JSArray.after. rewrite (byHearingDate_days x y d d Ex Ey).
      replace ((d - d) * msPerDay) with 0 by lia. reflexivity.
Qed.

End ViewFacts.

(** C5, the code at a failing input.  Five hours west of Greenwich, at
    seven in the morning of 15 June 2024, a hearing dated that very day is
    not within seven days, and one dated eight days later is: the date
    string is read as midnight UTC, which is the evening of the day before
    in local time, and [setHours] then goes back to that day's start. *)
Theorem isWithin7Days_west_of_Greenwich :
  localDay (-18000000) 1718452800000 = 19889 /\
  hearingDay "2024-06-15" = Some 19889 /\
  isWithin7Days (-18000000) 1718452800000 "2024-06-15" = false /\
  hearingDay "2024-06-23" = Some (19889 + 8) /\
  isWithin7Days (-18000000) 1718452800000 "2024-06-23" = true.
Proof. vm_compute. repeat split. Qed.

(** C3, the code at a failing input.  In the same place and at the same
    time, the hearing of the day is missing from the upcoming hearings. *)
Theorem upcomingHearings_west_of_Greenwich :
  localDay (-18000000) 1718452800000 = 19889 /\
  hearingDay "2024-06-15" = Some 19889 /\
  getUpcomingHearings (-18000000) 1718452800000
    (sampleState 0 [sampleCase 1 "2024-06-15"]) = [].
Proof. vm_compute. repeat split. Qed.

(* ================================================================== *)
(** * Further properties of the component                              *)
(* ================================================================== *)

Section CourtFacts.

Lemma ascii_compare_lt a b : Ascii.compare a b = Lt <-> (N_of_ascii a < N_of_ascii b)%N.
Proof. unfold Ascii.compare. apply N.compare_lt_iff. Qed.

Lemma ascii_compare_gt a b : Ascii.compare a b = Gt <-> (N_of_ascii b < N_of_ascii a)%N.
Proof. unfold Ascii.compare. apply N.compare_gt_iff. Qed.

Lemma string_compare_trans a : forall b c,
  String.compare a b = Lt -> String.compare b c = Lt -> String.compare a c = Lt.
Proof.
  induction a as [|x a IH]; intros [|y b] [|z c]; cbn; try congruence.
  intros H1 H2.
  destruct (Ascii.compare x y) eqn:Hxy; [|clear H1|discriminate H1].
  - apply Ascii.compare_eq_iff in Hxy. subst y.
    destruct (Ascii.compare x z); [now apply IH with b|reflexivity|discriminate H2].
  - destruct (Ascii.compare y z) eqn:Hyz; [| |discriminate H2].
    + apply Ascii.compare_eq_iff in Hyz. subst z. now rewrite Hxy.
    + apply ascii_compare_lt in Hxy. apply ascii_compare_lt in Hyz.
      assert (E : Ascii.compare x z = Lt)
        by (apply ascii_compare_lt; eapply N.lt_trans; eassumption).
      now rewrite E.
Qed.

Lemma string_ltb_lt a b : String.ltb a b = true <-> String.compare a b = Lt.
Proof. unfold String.ltb. destruct (String.compare a b); split; congruence. Qed.

Lemma string_ltb_asym a b : String.ltb a b = true -> String.ltb b a = false.
Proof.
  rewrite string_ltb_lt. intros H. unfold String.ltb.
  rewrite String.compare_antisym, H. reflexivity.
Qed.

Lemma string_ltb_total a b : String.ltb a b = false -> a <> b -> String.ltb b a = true.
Proof.
  unfold String.ltb. rewrite (String.compare_antisym b a).
  destruct (String.compare a b) eqn:E; cbn; try congruence.
  intros _ Hne. apply String.compare_eq_iff in E. contradiction.
Qed.

Lemma string_ltb_trans a b c :
  String.ltb a b = true -> String.ltb b c = true -> String.ltb a c = true.
Proof. rewrite !string_ltb_lt. apply string_compare_trans. Qed.

Lemma string_ltb_irrefl a : String.ltb a a = false.
Proof.
  destruct (String.ltb a a) eqn:E; [|reflexivity].
  pose proof (string_ltb_asym a a E). congruence.
Qed.

Lemma after_defaultCompare x y :
  JSArray.after defaultCompare x y = String.ltb y x.
Proof.
  unfold JSArray.after, defaultCompare.
  destruct (String.ltb x y) eqn:Hxy.
  - now rewrite (string_ltb_asym x y Hxy).
  - destruct (String.ltb y x); reflexivity.
Qed.

Lemma setFrom_spec l : forall seen,
  NoDup (setFrom seen l) /\
  forall x, In x (setFrom seen l) <-> In x l /\ ~ In x seen.
Proof.
  induction l as [|y l IH]; intros seen; cbn [setFrom].
  - split; [constructor|]. cbn. tauto.
  - destruct (existsb (String.eqb y) seen) eqn:E.
    + destruct (IH seen) as (Hn & Hi). split; [assumption|].
      intros x. rewrite Hi. cbn. split; [tauto|].
      intros ([<-|Hx] & Hs); [|tauto]. exfalso. apply Hs.
      apply existsb_exists in E as (z & Hz & Hyz).
      apply String.eqb_eq in Hyz. now subst.
    + destruct (IH (y :: seen)) as (Hn & Hi). split.
      * constructor; [|assumption]. rewrite Hi. cbn. tauto.
      * intros x. cbn [In]. rewrite Hi. cbn [In].
        assert (Hy : ~ In y seen).
        { intros Hy. assert (existsb (String.eqb y) seen = true); [|congruence].
          apply existsb_exists. exists y. split; [assumption|apply String.eqb_refl]. }
        destruct (string_dec y x) as [->|Hne]; tauto.
Qed.

End CourtFacts.

(** [getUniqueCourts] lists the court names of the collection, each
    once, in strictly ascending order of code units. *)
Theorem getUniqueCourts_spec st :
  StronglySorted (fun a b => String.ltb a b = true) (getUniqueCourts st) /\
  NoDup (getUniqueCourts st) /\
  forall x, In x (getUniqueCourts st) <->
            exists c, In c (cases st) /\ Case.courtName c = x.
Proof.
  unfold getUniqueCourts. cbv zeta.
  destruct (setFrom_spec (map Case.courtName (cases st)) []) as (Hn & Hi).
  assert (Hnd : NoDup (JSArray.sort defaultCompare
                         (setFrom [] (map Case.courtName (cases st))))).
  { eapply Permutation_NoDup; [apply sort_perm|assumption]. }
  split; [|split; [assumption|]].
  - assert (Hs := sort_sorted defaultCompare).
    specialize (Hs ltac:(intros x y; rewrite !after_defaultCompare; apply string_ltb_asym)).
    specialize (Hs ltac:(intros x y z; rewrite !after_defaultCompare; intros H1 H2;
      destruct (String.ltb z x) eqn:E; [|reflexivity];
      destruct (string_dec y z) as [->|Hne]; [congruence|];
      pose proof (string_ltb_total _ _ H2 (not_eq_sym Hne)) as H3;
      pose proof (string_ltb_trans _ _ _ H3 E); congruence)).
    specialize (Hs (setFrom [] (map Case.courtName (cases st)))).
    revert Hnd Hs.
    generalize (JSArray.sort defaultCompare
                  (setFrom [] (map Case.courtName (cases st)))).
    intros l Hnd Hs. induction Hs as [|x l Hs IH Hx]; constructor.
    + apply IH. now inversion Hnd.
    + inversion Hnd as [|? ? Hnx Hnl]; subst.
      apply Forall_forall. intros y Hy.
      pose proof (proj1 (Forall_forall _ _) Hx y Hy) as Hxy.
      cbv beta in Hxy. rewrite after_defaultCompare in Hxy.
      apply string_ltb_total; [assumption|]. intros ->. contradiction.
  - intros x. rewrite sort_In, Hi, in_map_iff. cbn. split.
    + intros ((c & Hc & Hin) & _). now exists c.
    + intros (c & Hin & Hc). split; [now exists c|tauto].
Qed.

(** A first render over a storage that holds what an earlier session
    saved restores the cases of that session, and the save that follows
    the load writes the same text again. *)
Theorem mount_restores st :
  (String.length (JSON.stringify (cases st)) <= Storage.room (localStorage st))%nat ->
  let st' := mount (localStorage (saveCasesToStorage st)) in
  cases st' = cases st /\
  isInitialLoad st' = false /\
  Storage.courtCases (localStorage st') = Some (JSON.stringify (cases st)) /\
  errors st' = [].
Proof.
  intros Hroom. pose proof Hroom as Hb. apply Nat.leb_le in Hb.
  unfold mount, saveCasesToStorage, Storage.setItem. rewrite Hb.
  unfold loadCasesFromStorage.
  cbn [localStorage setLocalStorage initialState Storage.getItem Storage.courtCases].
  rewrite stringify_truthy, parse_stringify.
  unfold saveEffect, saveCasesToStorage, Storage.setItem.
  cbn [setIsInitialLoad setCases isInitialLoad cases localStorage Storage.room
       initialState].
  rewrite Hb. repeat split.
Qed.

Lemma mount_restores_witness :
  cases (mount (localStorage (saveCasesToStorage
           (sampleState 1000 [sampleCase 1 "2024-01-31"]))))
  = [sampleCase 1 "2024-01-31"].
Proof.
  apply (mount_restores (sampleState 1000 [sampleCase 1 "2024-01-31"])).
  apply Nat.leb_le. vm_compute. reflexivity.
Defined.

(** A first render over a storage without the item does not throw:
    the collection is empty, nothing is logged, and the save that follows
    the load stores the empty array, when two code units fit. *)
Theorem mount_without_data room :
  (2 <= room)%nat ->
  let st' := mount (Storage.mk None room) in
  cases st' = [] /\
  isInitialLoad st' = false /\
  Storage.courtCases (localStorage st') = Some "[]" /\
  errors st' = [].
Proof.
  intros Hroom. unfold mount, loadCasesFromStorage.
  cbn [localStorage initialState Storage.getItem Storage.courtCases].
  assert (Hb : (String.length (JSON.stringify []) <=? room)%nat = true).
  { apply Nat.leb_le. cbn. lia. }
  unfold saveEffect, saveCasesToStorage, Storage.setItem.
  cbn [setIsInitialLoad isInitialLoad cases localStorage Storage.room
       initialState].
  rewrite Hb. repeat split.
Qed.

Lemma mount_without_data_witness :
  Storage.courtCases (localStorage (mount (Storage.mk None 10))) = Some "[]".
Proof.
  apply (mount_without_data 10). apply Nat.leb_le. reflexivity.
Defined.

Lemma parse_beginsNoJSONValue text :
  beginsNoJSONValue text = true -> JSON.parse text = None.
Proof.
  unfold beginsNoJSONValue, JSON.parse, JSON.parseArray, JSON.expect.
  destruct (JSON.skipWS text) as [|c r]; [reflexivity|].
  intros H. apply negb_true_iff, orb_false_iff in H as [_ H].
  cbn [existsb] in H. apply orb_false_iff in H as [H _].
  now rewrite H.
Qed.

(** A first render over a stored text that is no JSON text at its first
    token (garbage, or white space only) does not throw: the SyntaxError
    of [JSON.parse] is caught and logged, the collection is empty, and the
    save that follows the load writes the empty array over the text, when
    two code units fit. *)
Theorem mount_rejected_data text room :
  (2 <= room)%nat ->
  JSString.truthy text = true ->
  beginsNoJSONValue text = true ->
  let st' := mount (Storage.mk (Some text) room) in
  cases st' = [] /\
  isInitialLoad st' = false /\
  Storage.courtCases (localStorage st') = Some "[]" /\
  errors st' = ["Error loading cases from localStorage:"].
Proof.
  intros Hroom Ht Hp. apply parse_beginsNoJSONValue in Hp.
  unfold mount, loadCasesFromStorage.
  cbn [localStorage initialState Storage.getItem Storage.courtCases].
  assert (Hb : (String.length (JSON.stringify []) <=? room)%nat = true).
  { apply Nat.leb_le. cbn. lia. }
  rewrite Ht, Hp.
  unfold saveEffect, saveCasesToStorage, Storage.setItem.
  cbn [setIsInitialLoad consoleError isInitialLoad cases localStorage
       Storage.room initialState].
  rewrite Hb. repeat split.
Qed.

Lemma mount_rejected_data_witness :
  Storage.courtCases (localStorage (mount (Storage.mk (Some "<html>") 10)))
  = Some "[]".
Proof.
  apply (mount_rejected_data "<html>" 10).
  - apply Nat.leb_le. reflexivity.
  - reflexivity.
  - reflexivity.
Defined.

(** When the serialized cases do not fit into the storage,
    [saveCasesToStorage] catches the exception: the failure is logged, the
    collection in memory is untouched and the stored item stays what it
    was. *)
Theorem save_failure_keeps_state st :
  (Storage.room (localStorage st) < String.length (JSON.stringify (cases st)))%nat ->
  let st' := saveCasesToStorage st in
  cases st' = cases st /\
  localStorage st' = localStorage st /\
  errors st' = "Error saving cases to localStorage:" :: errors st.
Proof.
  intros Hroom. apply Nat.leb_gt in Hroom.
  unfold saveCasesToStorage, Storage.setItem. rewrite Hroom. repeat split.
Qed.

Lemma save_failure_keeps_state_witness :
  localStorage (saveCasesToStorage (sampleState 5 [sampleCase 1 "2024-01-31"]))
  = Storage.mk None 5.
Proof.
  apply (save_failure_keeps_state (sampleState 5 [sampleCase 1 "2024-01-31"])).
  apply Nat.leb_gt. vm_compute. reflexivity.
Defined.

(** With the four required fields filled in, [handleSubmit] keeps the
    cases there are and appends one that carries the fields of the form
    and the ISO string of the clock as [createdAt]; the form goes back to
    its defaults, the form panel closes and the success is reported. *)
Theorem handleSubmit_appends idNow createdNow st :
  requiredFilled (formData st) ->
  let st' := handleSubmit idNow createdNow st in
  let f := formData st in
  cases st' =
    (cases st ++
     [Case.mk idNow (Form.caseNumber f) (Form.courtName f) (Form.caseType f)
              (Form.clientName f) (Form.opponentName f) (Form.hearingDate f)
              (Form.caseStatus f) (Form.notes f)
              (DateObj.isoString createdNow)])%list /\
  List.length (cases st') = S (List.length (cases st)) /\
  formData st' = Form.empty /\
  showForm st' = false /\
  alerts st' = "Case added successfully!" :: alerts st /\
  localStorage st' = localStorage st.
Proof.
  intros Hf. cbv zeta. pose proof (handleSubmit_valid idNow createdNow st Hf) as Hc.
  split; [assumption|]. split.
  - rewrite Hc, length_app. cbn. lia.
  - destruct Hf as (H1 & H2 & H3 & H4). unfold handleSubmit.
    apply truthy_true in H1, H2, H3, H4. rewrite H1, H2, H3, H4.
    repeat split.
Qed.

Lemma handleSubmit_appends_witness :
  formData (handleSubmit 1700000000000 1700000000000 (sampleState 0 []))
  = Form.empty.
Proof.
  apply (handleSubmit_appends 1700000000000 1700000000000 (sampleState 0 [])).
  repeat split; discriminate.
Defined.

(** Typing a value into each of the four required fields and
    submitting appends a case with these four values, when none of them is
    empty, whatever the form held before. *)
Theorem fill_in_and_submit idNow createdNow st number court client date :
  number <> EmptyString -> court <> EmptyString ->
  client <> EmptyString -> date <> EmptyString ->
  let typed :=
    handleInputChange Field.hearingDate date
      (handleInputChange Field.clientName client
        (handleInputChange Field.courtName court
          (handleInputChange Field.caseNumber number st))) in
  exists c,
    cases (handleSubmit idNow createdNow typed) = (cases st ++ [c])%list /\
    Case.id c = idNow /\
    Case.caseNumber c = number /\ Case.courtName c = court /\
    Case.clientName c = client /\ Case.hearingDate c = date /\
    Case.caseType c = Form.caseType (formData st) /\
    Case.opponentName c = Form.opponentName (formData st) /\
    Case.caseStatus c = Form.caseStatus (formData st) /\
    Case.notes c = Form.notes (formData st).
Proof.
  intros H1 H2 H3 H4. cbv zeta. eexists. split.
  - rewrite handleSubmit_valid; [reflexivity|].
    repeat split; assumption.
  - repeat split.
Qed.

Lemma fill_in_and_submit_witness :
  exists c,
    cases (handleSubmit 5 5
      (handleInputChange Field.hearingDate "2024-06-15"
        (handleInputChange Field.clientName "Abdul Rahman"
          (handleInputChange Field.courtName "High Court"
            (handleInputChange Field.caseNumber "CV-1"
              (initialState (Storage.mk None 0))))))) = [c] /\
    Case.caseType c = "Civil" /\ Case.caseStatus c = "Pending".
Proof.
  destruct (fill_in_and_submit 5 5 (initialState (Storage.mk None 0))
              "CV-1" "High Court" "Abdul Rahman" "2024-06-15")
    as (c & Hc & _ & _ & _ & _ & _ & Ht & _ & Hs & _); try discriminate.
  exists c. repeat split; assumption.
Defined.

(** [handleInputChange] writes the value into the named field of the
    form and leaves everything else: the other seven fields, the
    collection, the search term and the filters, the flags, the storage and
    the messages.  A second value typed into the field replaces the
    first. *)
Theorem handleInputChange_sets_field name value st :
  let st' := handleInputChange name value st in
  getField name (formData st') = value /\
  (forall other, other <> name ->
     getField other (formData st') = getField other (formData st)) /\
  cases st' = cases st /\
  searchTerm st' = searchTerm st /\
  filterCourt st' = filterCourt st /\
  filterCaseType st' = filterCaseType st /\
  showForm st' = showForm st /\
  activeSection st' = activeSection st /\
  isInitialLoad st' = isInitialLoad st /\
  localStorage st' = localStorage st /\
  alerts st' = alerts st /\
  errors st' = errors st /\
  (forall value', handleInputChange name value' st' = handleInputChange name value' st).
Proof.
  cbv zeta. split; [destruct name; reflexivity|]. split.
  - intros other Hne. destruct name, other; try congruence; reflexivity.
  - repeat split. intros value'. destruct name; reflexivity.
Qed.

Lemma handleInputChange_sets_field_witness :
  getField Field.courtName
    (formData (handleInputChange Field.courtName "High Court"
                 (initialState (Storage.mk None 0)))) = "High Court" /\
  getField Field.caseType
    (formData (handleInputChange Field.courtName "High Court"
                 (initialState (Storage.mk None 0)))) = "Civil".
Proof.
  destruct (handleInputChange_sets_field Field.courtName "High Court"
              (initialState (Storage.mk None 0))) as (H1 & H2 & _).
  split; [exact H1|].
  rewrite (H2 Field.caseType); [reflexivity|discriminate].
Defined.

(** [deleteCase] with an id that no case carries leaves the
    collection as it is, whatever the answer to the confirmation. *)
Theorem deleteCase_unknown_id confirmed caseId st :
  ~ In caseId (map Case.id (cases st)) ->
  cases (deleteCase confirmed caseId st) = cases st.
Proof.
  intros Hn. destruct confirmed; [|reflexivity]. cbn.
  apply forallb_filter_id. apply forallb_forall. intros c Hc.
  apply negb_true_iff, Z.eqb_neq. intros He. apply Hn.
  rewrite <- He. now apply in_map.
Qed.

Lemma deleteCase_unknown_id_witness :
  cases (deleteCase true 7 (sampleState 0 [sampleCase 1 "2024-01-31"]))
  = [sampleCase 1 "2024-01-31"].
Proof.
  apply (deleteCase_unknown_id true 7 (sampleState 0 [sampleCase 1 "2024-01-31"])).
  cbn. intros [H|[]]. discriminate H.
Defined.

Lemma filter_ids_length caseId (l : list Case.t) :
  NoDup (map Case.id l) -> In caseId (map Case.id l) ->
  S (List.length (filter (fun c => negb (Case.id c =? caseId)%Z) l)) = List.length l.
Proof.
  induction l as [|c l IH]; cbn; [tauto|].
  intros Hnd Hin. inversion Hnd as [|? ? Hc Hl]; subst.
  destruct (Z.eqb_spec (Case.id c) caseId) as [He|Hne]; cbn.
  - f_equal. rewrite forallb_filter_id; [reflexivity|].
    apply forallb_forall. intros x Hx. apply negb_true_iff, Z.eqb_neq.
    intros Hxe. apply Hc. rewrite He, <- Hxe. now apply in_map.
  - f_equal. apply IH; [assumption|]. destruct Hin; [contradiction|assumption].
Qed.

(** In a collection whose ids are unique, a confirmed [deleteCase]
    with the id of one of the cases makes the collection one case shorter,
    the id is gone, and the ids that remain are still unique. *)
Theorem deleteCase_unique_ids caseId st :
  NoDup (map Case.id (cases st)) ->
  In caseId (map Case.id (cases st)) ->
  let st' := deleteCase true caseId st in
  S (List.length (cases st')) = List.length (cases st) /\
  ~ In caseId (map Case.id (cases st')) /\
  NoDup (map Case.id (cases st')).
Proof.
  intros Hnd Hin. cbn. split; [now apply filter_ids_length|]. split.
  - intros H. apply in_map_iff in H as (c & He & Hc).
    apply filter_In in Hc as [_ Hc]. apply negb_true_iff, Z.eqb_neq in Hc.
    contradiction.
  - clear Hin. induction (cases st) as [|c l IH]; cbn; [constructor|].
    cbn in Hnd. inversion Hnd as [|? ? Hc Hl]; subst.
    destruct (Case.id c =? caseId)%Z; cbn; [now apply IH|].
    constructor; [|now apply IH].
    intros H. apply Hc. apply in_map_iff in H as (x & He & Hx).
    apply filter_In in Hx as [Hx _]. rewrite <- He. now apply in_map.
Qed.

Lemma deleteCase_unique_ids_witness :
  S (List.length (cases (deleteCase true 2
       (sampleState 0 [sampleCase 1 "2024-01-31"; sampleCase 2 "2024-06-15"]))))
  = 2%nat.
Proof.
  apply (deleteCase_unique_ids 2
           (sampleState 0 [sampleCase 1 "2024-01-31"; sampleCase 2 "2024-06-15"])).
  - cbn. repeat constructor; cbn; intuition discriminate.
  - cbn. auto.
Defined.

(** When the ids are unique and the clock reads a value none of them
    has, the collection after [handleSubmit] still has unique ids. *)
Theorem handleSubmit_unique_ids idNow createdNow st :
  requiredFilled (formData st) ->
  NoDup (map Case.id (cases st)) ->
  ~ In idNow (map Case.id (cases st)) ->
  NoDup (map Case.id (cases (handleSubmit idNow createdNow st))).
Proof.
  intros Hf Hnd Hn. rewrite handleSubmit_valid by assumption.
  rewrite map_app. cbn [map Case.id].
  apply NoDup_app; [assumption|repeat constructor; auto|].
  intros x Hx [<-|[]]. contradiction.
Qed.

Lemma handleSubmit_unique_ids_witness :
  NoDup (map Case.id (cases (handleSubmit 2 2
           (sampleState 0 [sampleCase 1 "2024-01-31"])))).
Proof.
  apply (handleSubmit_unique_ids 2 2 (sampleState 0 [sampleCase 1 "2024-01-31"])).
  - repeat split; discriminate.
  - repeat constructor. cbn. tauto.
  - cbn. intros [H|[]]. discriminate H.
Defined.

(** The case of the letters in the search term does not matter: two
    terms with the same lower-case form select the same cases. *)
Theorem search_ignores_case term term' st :
  JSString.toLowerCase term = JSString.toLowerCase term' ->
  getFilteredCases (setSearchTerm term st)
  = getFilteredCases (setSearchTerm term' st).
Proof.
  intros H. unfold getFilteredCases.
  cbn [setSearchTerm searchTerm filterCourt filterCaseType cases].
  apply filter_ext. intros c. unfold matchesFilters. rewrite H.
  replace (term =? EmptyString) with (term' =? EmptyString); [reflexivity|].
  destruct term, term'; try reflexivity; discriminate H.
Qed.

Lemma search_ignores_case_witness :
  getFilteredCases (setSearchTerm "AB" (sampleState 0 [sampleCase 1 "2024-01-31"]))
  = getFilteredCases (setSearchTerm "ab" (sampleState 0 [sampleCase 1 "2024-01-31"])).
Proof.
  apply (search_ignores_case "AB" "ab"). reflexivity.
Defined.

(** With an empty search term and both filters empty, as in the
    first render, [getFilteredCases] is the whole collection. *)
Theorem getFilteredCases_no_filter st :
  searchTerm st = EmptyString -> filterCourt st = EmptyString ->
  filterCaseType st = EmptyString ->
  getFilteredCases st = cases st.
Proof.
  intros H1 H2 H3. unfold getFilteredCases. rewrite H1, H2, H3.
  apply forallb_filter_id. apply forallb_forall. intros c _. reflexivity.
Qed.

Lemma getFilteredCases_no_filter_witness :
  getFilteredCases (sampleState 0 [sampleCase 1 "2024-01-31"])
  = [sampleCase 1 "2024-01-31"].
Proof.
  apply (getFilteredCases_no_filter (sampleState 0 [sampleCase 1 "2024-01-31"]));
    reflexivity.
Defined.

(** The days left on a reminder card count calendar days in UTC: for
    a calendar date, the day it names less the UTC day of the clock.  (The
    quotient is below 2^27 in size for such dates and a clock in range, so
    that the rounded division of the source and the exact one have the
    same ceiling.) *)
Theorem daysRemaining_utc now s d :
  0 <= now <= JSDate.maxTime ->
  isCalendarDate s = true ->
  hearingDay s = Some d ->
  daysRemaining now s = Some (d - JSDate.Day now).
Proof.
  intros _ _ Hd. apply hearingDay_parse in Hd.
  unfold daysRemaining. rewrite Hd. cbn [DateObj.minus option_map]. f_equal.
  unfold ceilDiv, JSDate.Day.
  replace (- (d * JSDate.msPerDay - now)) with (now + (- d) * JSDate.msPerDay) by lia.
  unfold JSDate.msPerDay. rewrite Z.div_add by lia. lia.
Qed.

Lemma daysRemaining_utc_witness :
  daysRemaining 1718452800000 "2024-06-16" = Some (19890 - JSDate.Day 1718452800000).
Proof.
  apply (daysRemaining_utc 1718452800000 "2024-06-16" 19890).
  - unfold JSDate.maxTime. lia.
  - reflexivity.
  - reflexivity.
Defined.

(** In a time zone of fixed offset from UTC, [isWithin7Days] on a
    calendar date is true exactly when the day the date names, less one
    day west of Greenwich (the string is read as midnight UTC and then
    brought to local midnight), lies zero to seven days after the local
    today. *)
Theorem isWithin7Days_calendar LocalTZA now s d :
  (- JSDate.msPerDay < LocalTZA < JSDate.msPerDay)%Z ->
  (0 <= now <= JSDate.maxTime)%Z ->
  isCalendarDate s = true ->
  hearingDay s = Some d ->
  isWithin7Days LocalTZA now s =
  (0 <=? d - dayShift LocalTZA - localDay LocalTZA now)%Z &&
  (d - dayShift LocalTZA - localDay LocalTZA now <=? 7)%Z.
Proof.
  intros Hz Hn _ Hd. rewrite (isWithin7Days_days LocalTZA Hz now Hn s), Hd.
  reflexivity.
Qed.

Lemma isWithin7Days_calendar_witness :
  isWithin7Days 19800000 1718452800000 "2024-06-22" = true /\
  isWithin7Days 19800000 1718452800000 "2024-06-23" = false.
Proof.
  split.
  - rewrite (isWithin7Days_calendar 19800000 1718452800000 "2024-06-22" 19896);
      [reflexivity|unfold JSDate.msPerDay; lia|unfold JSDate.maxTime; lia
      |reflexivity|reflexivity].
  - rewrite (isWithin7Days_calendar 19800000 1718452800000 "2024-06-23" 19897);
      [reflexivity|unfold JSDate.msPerDay; lia|unfold JSDate.maxTime; lia
      |reflexivity|reflexivity].
Defined.

(** In a time zone of fixed offset from UTC and on a collection whose
    hearing dates are calendar dates, [getUpcomingHearings] keeps exactly
    the cases whose day, less one day west of Greenwich, is the local today
    or later, returns them in ascending order of their dates, and keeps the
    cases of one date in the order they have in the collection. *)
Theorem upcomingHearings_calendar LocalTZA now st :
  (- JSDate.msPerDay < LocalTZA < JSDate.msPerDay)%Z ->
  (0 <= now <= JSDate.maxTime)%Z ->
  (forall c, In c (cases st) -> isCalendarDate (Case.hearingDate c) = true) ->
  (forall c, In c (getUpcomingHearings LocalTZA now st) <->
             In c (cases st) /\
             exists d, hearingDay (Case.hearingDate c) = Some d /\
                       (localDay LocalTZA now <= d - dayShift LocalTZA)%Z) /\
  StronglySorted notLater (getUpcomingHearings LocalTZA now st) /\
  (forall d, (localDay LocalTZA now <= d - dayShift LocalTZA)%Z ->
             filter (onDay d) (getUpcomingHearings LocalTZA now st)
             = filter (onDay d) (cases st)).
Proof.
  intros Hz Hn _. exact (upcomingHearings_days LocalTZA Hz now Hn st).
Qed.

Lemma upcomingHearings_calendar_witness :
  getUpcomingHearings 19800000 1718452800000
    (sampleState 0 [sampleCase 1 "2024-06-18"; sampleCase 2 "2024-06-14";
                    sampleCase 3 "2024-06-15"; sampleCase 4 "2024-06-18"])
  = [sampleCase 3 "2024-06-15"; sampleCase 1 "2024-06-18"; sampleCase 4 "2024-06-18"]
  /\
  StronglySorted notLater
    (getUpcomingHearings 19800000 1718452800000
       (sampleState 0 [sampleCase 1 "2024-06-18"; sampleCase 2 "2024-06-14";
                       sampleCase 3 "2024-06-15"; sampleCase 4 "2024-06-18"])).
Proof.
  split; [vm_compute; reflexivity|].
  apply (upcomingHearings_calendar 19800000 1718452800000
           (sampleState 0 [sampleCase 1 "2024-06-18"; sampleCase 2 "2024-06-14";
                           sampleCase 3 "2024-06-15"; sampleCase 4 "2024-06-18"])).
  - unfold JSDate.msPerDay. lia.
  - unfold JSDate.maxTime. lia.
  - intros c [<-|[<-|[<-|[<-|[]]]]]; reflexivity.
Defined.

(* ================================================================== *)
(** * Proofs: a month on, in general                                   *)
(* ================================================================== *)

Section MonthOn.

Import JSDate JSString.
Local Open Scope Z_scope.

Lemma leap_flag y : 0 <= (if DaysInYear y =? 366 then 1 else 0) <= 1.
Proof. destruct (DaysInYear y =? 366); lia. Qed.

(** The calendar fields of a day composed from a year, a month and one of
    the first 28 days of the month are that year, month and day. *)
Lemma fields_of_MakeDay y mn d :
  0 <= mn <= 11 -> 1 <= d <= 28 ->
  let D := MakeDay y mn d in
  yearOfDay D = y /\
  MonthFromTime (D * msPerDay) = mn /\
  DateFromTime (D * msPerDay) = d.
Proof.
  intros Hm Hd. cbv zeta.
  assert (HD : MakeDay y mn d
               = DayFromYear y
                 + daysBeforeMonth (if DaysInYear y =? 366 then 1 else 0) mn + d - 1).
  { unfold MakeDay.
    replace (mn / 12) with 0 by (Z.to_euclidean_division_equations; lia).
    replace (mn mod 12) with mn by (Z.to_euclidean_division_equations; lia).
    now rewrite Z.add_0_r. }
  pose proof (leap_flag y) as Hl.
  set (leap := if DaysInYear y =? 366 then 1 else 0) in *.
  assert (Hleap : DaysInYear y = 365 + leap).
  { unfold leap. destruct (DaysInYear_cases y) as [E|E]; rewrite E; reflexivity. }
  assert (Hb : 0 <= daysBeforeMonth leap mn + d - 1 < 365 + leap).
  { assert (Hc : mn = 0 \/ mn = 1 \/ mn = 2 \/ mn = 3 \/ mn = 4 \/ mn = 5 \/ mn = 6 \/
                 mn = 7 \/ mn = 8 \/ mn = 9 \/ mn = 10 \/ mn = 11) by lia.
    repeat destruct Hc as [->|Hc]; try subst mn; cbn [daysBeforeMonth]; lia. }
  assert (Hy : yearOfDay (MakeDay y mn d) = y).
  { apply Z.le_antisymm.
    - apply Z.lt_succ_r. apply yearOfDay_below.
      rewrite <- Z.add_1_r, DayFromYear_succ. lia.
    - apply yearOfDay_largest. lia. }
  split; [assumption|].
  assert (Hw : DayWithinYear (MakeDay y mn d * msPerDay)
               = daysBeforeMonth leap mn + d - 1).
  { unfold DayWithinYear, YearFromTime. rewrite Day_midnight, Hy. lia. }
  assert (Hi : InLeapYear (MakeDay y mn d * msPerDay) = leap).
  { unfold InLeapYear, YearFromTime. rewrite Day_midnight, Hy. reflexivity. }
  assert (Hmo : MonthFromTime (MakeDay y mn d * msPerDay) = mn).
  { unfold MonthFromTime. rewrite Hw, Hi. cbv zeta.
    assert (Hc : mn = 0 \/ mn = 1 \/ mn = 2 \/ mn = 3 \/ mn = 4 \/ mn = 5 \/ mn = 6 \/
                 mn = 7 \/ mn = 8 \/ mn = 9 \/ mn = 10 \/ mn = 11) by lia.
    repeat destruct Hc as [->|Hc]; try subst mn; cbn [daysBeforeMonth];
      repeat match goal with
             | |- context [?a <? ?b] => destruct (Z.ltb_spec a b); try lia
             end. }
  split; [assumption|].
  unfold DateFromTime. rewrite Hmo, Hw, Hi. cbv zeta.
  assert (Hc : mn = 0 \/ mn = 1 \/ mn = 2 \/ mn = 3 \/ mn = 4 \/ mn = 5 \/ mn = 6 \/
               mn = 7 \/ mn = 8 \/ mn = 9 \/ mn = 10 \/ mn = 11) by lia.
  repeat destruct Hc as [->|Hc]; try subst mn; cbn [daysBeforeMonth]; lia.
Qed.

Lemma digitChar_not_T k : 0 <= k <= 9 -> (digitChar k =? "T")%char = false.
Proof.
  intros H.
  assert (Hd : k = 0 \/ k = 1 \/ k = 2 \/ k = 3 \/ k = 4 \/ k = 5 \/ k = 6 \/
               k = 7 \/ k = 8 \/ k = 9) by lia.
  repeat destruct Hd as [->|Hd]; try subst k; reflexivity.
Qed.

Lemma pad2_chars v :
  padDigits 2 v
  = String (digitChar ((v / 10) mod 10)) (String (digitChar (v mod 10)) EmptyString).
Proof. reflexivity. Qed.

Lemma pad4_chars v :
  padDigits 4 v
  = String (digitChar ((v / 10 / 10 / 10) mod 10))
      (String (digitChar ((v / 10 / 10) mod 10))
        (String (digitChar ((v / 10) mod 10))
          (String (digitChar (v mod 10)) EmptyString))).
Proof. reflexivity. Qed.

Lemma pad2_val v :
  0 <= v <= 99 ->
  digitsVal 0 [digitChar ((v / 10) mod 10); digitChar (v mod 10)] = Some v.
Proof.
  intros H. cbn [digitsVal]. rewrite !digitVal_digitChar by apply mod10_digit.
  f_equal. Z.to_euclidean_division_equations; lia.
Qed.

Lemma pad4_val v :
  0 <= v <= 9999 ->
  digitsVal 0 [digitChar ((v / 10 / 10 / 10) mod 10);
               digitChar ((v / 10 / 10) mod 10);
               digitChar ((v / 10) mod 10); digitChar (v mod 10)] = Some v.
Proof.
  intros H. cbn [digitsVal]. rewrite !digitVal_digitChar by apply mod10_digit.
  f_equal. Z.to_euclidean_division_equations; lia.
Qed.

Lemma DaysInMonth_28 y m : 28 <= DateObj.DaysInMonth y m.
Proof.
  unfold DateObj.DaysInMonth.
  destruct (DaysInYear y =? 366);
    destruct m as [|p|p]; cbn; try lia;
    do 4 (try (destruct p as [p|p|]; cbn; try lia)).
Qed.

Lemma MakeDay_calendar_bounds y mn d :
  0 <= y <= 9999 -> 0 <= mn <= 11 -> 1 <= d <= 31 ->
  - maxTime <= MakeDay y mn d * msPerDay <= maxTime.
Proof.
  intros Hy Hm Hd.
  pose proof (MakeDay_bounds y mn d ltac:(lia) ltac:(lia) ltac:(lia)).
  unfold maxTime, msPerDay. lia.
Qed.

(** The date string of a valid date reads as the midnight UTC of its
    day. *)
Lemma parse_isoDate y m d :
  0 <= y <= 9999 -> 1 <= m <= 12 -> 1 <= d <= 28 ->
  DateObj.parse (isoDate y m d) = Some (MakeDay y (m - 1) d * msPerDay).
Proof.
  intros Hy Hm Hd. unfold isoDate. rewrite pad4_chars, !pad2_chars.
  unfold DateObj.parse. cbn [append list_ascii_of_string].
  change (("-" =? "-")%char && ("-" =? "-")%char) with true. cbv iota.
  unfold DateObj.dateOnly.
  rewrite pad4_val, !pad2_val by lia. rewrite Z.mul_1_l.
  pose proof (DaysInMonth_28 y m).
  destruct (Z.leb_spec 1 m); [|lia]. destruct (Z.leb_spec m 12); [|lia].
  destruct (Z.leb_spec 1 d); [|lia].
  destruct (Z.leb_spec d (DateObj.DaysInMonth y m)); [|lia].
  cbn [andb]. unfold MakeDate. rewrite Z.add_0_r.
  apply TimeClip_inside. apply MakeDay_calendar_bounds; lia.
Qed.

(** The ISO string of the midnight UTC of a valid date, cut at the T, is
    the date string. *)
Lemma isoString_isoDate y m d :
  0 <= y <= 9999 -> 1 <= m <= 12 -> 1 <= d <= 28 ->
  splitHead "T" (DateObj.isoString (MakeDay y (m - 1) d * msPerDay))
  = isoDate y m d.
Proof.
  intros Hy Hm Hd.
  destruct (fields_of_MakeDay y (m - 1) d ltac:(lia) Hd) as (Hyr & Hmo & Hdt).
  unfold DateObj.isoString, YearFromTime. rewrite Day_midnight, Hyr, Hmo, Hdt.
  replace (m - 1 + 1) with m by lia.
  unfold DateObj.yearString.
  destruct (Z.leb_spec 0 y); [|lia]. destruct (Z.leb_spec y 9999); [|lia].
  cbn [andb]. unfold isoDate. rewrite pad4_chars, !pad2_chars.
  cbn [append splitHead].
  rewrite !digitChar_not_T by apply mod10_digit.
  change ("-" =? "T")%char with false. change ("T" =? "T")%char with true.
  reflexivity.
Qed.

Lemma MakeDay_date y mn d k : MakeDay y mn (d + k) = MakeDay y mn d + k.
Proof. unfold MakeDay. lia. Qed.

Lemma MakeDay_december y d : MakeDay y 12 d = MakeDay (y + 1) 0 d.
Proof.
  unfold MakeDay.
  change (12 / 12) with 1. change (12 mod 12) with 0.
  change (0 / 12) with 0. change (0 mod 12) with 0.
  cbv zeta. rewrite !Z.add_0_r. reflexivity.
Qed.

Lemma TimeWithinDay_shift LocalTZA D :
  - msPerDay < LocalTZA < msPerDay ->
  TimeWithinDay (D * msPerDay + LocalTZA) - LocalTZA
  = dayShift LocalTZA * msPerDay.
Proof.
  intros Hz. unfold dayShift. destruct (Z.leb_spec 0 LocalTZA).
  - rewrite TimeWithinDay_east by lia. lia.
  - rewrite TimeWithinDay_west by lia. lia.
Qed.

End MonthOn.

(** In a time zone of fixed offset from UTC (one without daylight-saving
    changes), a hearing on one of the first 28 days of a month moves to the
    same day of the next month, December to the January of the next year.
    West of Greenwich this holds from the second day of the month on: there
    the first is read as the last day of the month before. *)
Theorem advanceHearing_same_day_next_month LocalTZA y m d :
  (- JSDate.msPerDay < LocalTZA < JSDate.msPerDay)%Z ->
  (0 <= y <= 9999)%Z -> (1 <= m <= 12)%Z ->
  (1 + dayShift LocalTZA <= d <= 28)%Z ->
  ~ (y = 9999 /\ m = 12)%Z ->
  nextHearingDate LocalTZA (isoDate y m d)
  = Some (if (m =? 12)%Z then isoDate (y + 1) 1 d else isoDate y (m + 1) d).
Proof.
  intros Hz Hy Hm Hd Hlast.
  assert (Hs : (0 <= dayShift LocalTZA <= 1)%Z).
  { unfold dayShift. destruct (0 <=? LocalTZA)%Z; lia. }
  unfold nextHearingDate. rewrite parse_isoDate by lia.
  rewrite (setMonth_next LocalTZA _
             (JSDate.MakeDay y (m - 1) (d - dayShift LocalTZA)))
    by (rewrite Day_shift by assumption;
        replace d with (d - dayShift LocalTZA + dayShift LocalTZA)%Z at 1 by lia;
        rewrite MakeDay_date; lia).
  destruct (fields_of_MakeDay y (m - 1) (d - dayShift LocalTZA)
              ltac:(lia) ltac:(lia)) as (Hyr & Hmo & Hdt).
  rewrite Hyr, Hmo, Hdt.
  replace (m - 1 + 1)%Z with m by lia.
  replace (JSDate.MakeDay y m (d - dayShift LocalTZA) * JSDate.msPerDay
           + JSDate.TimeWithinDay
               (JSDate.MakeDay y (m - 1) d * JSDate.msPerDay + LocalTZA)
           - LocalTZA)%Z
    with (JSDate.MakeDay y m d * JSDate.msPerDay)%Z.
  2:{ pose proof (TimeWithinDay_shift LocalTZA (JSDate.MakeDay y (m - 1) d) Hz).
      replace d with (d - dayShift LocalTZA + dayShift LocalTZA)%Z at 1 by lia.
      rewrite MakeDay_date. lia. }
  destruct (Z.eqb_spec m 12) as [->|Hne].
  - rewrite MakeDay_december.
    rewrite TimeClip_inside by (apply MakeDay_calendar_bounds; lia).
    cbn [DateObj.toISOString option_map]. f_equal.
    apply (isoString_isoDate (y + 1) 1 d); lia.
  - rewrite TimeClip_inside by (apply MakeDay_calendar_bounds; lia).
    cbn [DateObj.toISOString option_map]. f_equal.
    replace m with (m + 1 - 1)%Z at 1 by lia.
    apply (isoString_isoDate y (m + 1) d); lia.
Qed.

Lemma advanceHearing_same_day_next_month_witness :
  nextHearingDate (-18000000) (isoDate 2024 12 15) = Some (isoDate 2025 1 15).
Proof.
  apply (advanceHearing_same_day_next_month (-18000000) 2024 12 15).
  - unfold JSDate.msPerDay. lia.
  - lia.
  - lia.
  - cbn. lia.
  - lia.
Defined.
